(** * Ersa: GraphQL over HTTP for Workers

    A shallow embedding of the request handler of the [ersa] package
    ([src/createHandler.js], [src/parseParams.js]) and the properties of its
    request-to-response pipeline.

    The JavaScript values the handler manipulates are embedded as the
    inductive type [JSValue]; the builtins the handler calls
    ([String.prototype.includes], [URLSearchParams], [Headers.get],
    [JSON.stringify], property access, object spread) are written out as
    executable functions.  [JSON.parse] and the GraphQL engine ([parse],
    [validate], [execute], [formatError], [getOperationAST]) are external to
    the package and are taken as parameters. *)

From Stdlib Require Import String Ascii List ZArith Bool DecimalString.
From Stdlib Require Import Sorted Lia.
From Stdlib Require HexadecimalString.
From Stdlib.Strings Require Byte.
Import ListNotations.

Open Scope list_scope.
Open Scope string_scope.

(** ** JavaScript values *)

(** Numbers are restricted to integers (status codes, counters); native
    [Error] instances carry their [name] and [message], which are own but
    not enumerable; functions are opaque. *)
#[warnings="-register-all"]
Inductive JSValue : Type :=
| JUndefined
| JNull
| JBool (b : bool)
| JNum (n : Z)
| JStr (s : string)
| JArr (items : list JSValue)
| JObj (props : list (string * JSValue))
| JErr (name message : string)
| JFun (id : nat).

(** Abrupt and normal completion of an evaluation. *)
Inductive Completion (A : Type) : Type :=
| Normal (a : A)
| Throw (e : JSValue).
Arguments Normal {A} a.
Arguments Throw {A} e.

Definition is_empty (s : string) : bool :=
  match s with EmptyString => true | String _ _ => false end.

(** [ToBoolean]. *)
Definition truthy (v : JSValue) : bool :=
  match v with
  | JUndefined | JNull => false
  | JBool b => b
  | JNum n => negb (Z.eqb n 0)
  | JStr s => negb (is_empty s)
  | JArr _ | JObj _ | JErr _ _ | JFun _ => true
  end.

(** [a || b] on already evaluated operands. *)
Definition js_or (a b : JSValue) : JSValue := if truthy a then a else b.

(** [typeof v === "object"]. *)
Definition typeof_object (v : JSValue) : bool :=
  match v with
  | JNull | JArr _ | JObj _ | JErr _ _ => true
  | JUndefined | JBool _ | JNum _ | JStr _ | JFun _ => false
  end.

Definition TypeError (message : string) : JSValue := JErr "TypeError" message.

(** *** Objects as ordered property lists *)

Fixpoint obj_get (props : list (string * JSValue)) (k : string) : JSValue :=
  match props with
  | [] => JUndefined
  | (k', v) :: rest => if String.eqb k' k then v else obj_get rest k
  end.

Fixpoint obj_has (props : list (string * JSValue)) (k : string) : bool :=
  match props with
  | [] => false
  | (k', _) :: rest => String.eqb k' k || obj_has rest k
  end.

(** Assignment [o[k] = v]: an existing property keeps its position. *)
Fixpoint obj_set (props : list (string * JSValue)) (k : string) (v : JSValue)
  : list (string * JSValue) :=
  match props with
  | [] => [(k, v)]
  | (k', v') :: rest =>
      if String.eqb k' k then (k', v) :: rest else (k', v') :: obj_set rest k v
  end.

Definition string_of_nat (n : nat) : string :=
  NilZero.string_of_uint (Nat.to_uint n).

Definition string_of_Z (n : Z) : string :=
  NilZero.string_of_int (Z.to_int n).

Fixpoint index_from {A : Type} (i : nat) (l : list A) : list (string * A) :=
  match l with
  | [] => []
  | x :: rest => (string_of_nat i, x) :: index_from (S i) rest
  end.

Fixpoint chars (s : string) : list JSValue :=
  match s with
  | EmptyString => []
  | String c rest => JStr (String c EmptyString) :: chars rest
  end.

(** The own enumerable string-keyed properties of a value, in order: what
    an object spread [{...v}] copies. *)
Definition own_enumerable (v : JSValue) : list (string * JSValue) :=
  match v with
  | JObj props => props
  | JArr items => index_from 0 items
  | JStr s => index_from 0 (chars s)
  | JUndefined | JNull | JBool _ | JNum _ | JErr _ _ | JFun _ => []
  end.

(** [{...a, ...v}] where [a] is the property list built so far. *)
Definition obj_spread (a : list (string * JSValue)) (v : JSValue)
  : list (string * JSValue) :=
  fold_left (fun acc kv => obj_set acc (fst kv) (snd kv)) (own_enumerable v) a.

(** Property read [v.k] for the property names the handler uses
    ([query], [variables], [operationName], [errors], [data], [status],
    [error], [headers], [message]): none of them is found on a builtin
    prototype, so only own properties matter.  Reading a property of
    [undefined] or [null] throws. *)
Definition get_prop (v : JSValue) (k : string) : Completion JSValue :=
  match v with
  | JUndefined =>
      Throw (TypeError ("Cannot read properties of undefined (reading '" ++ k ++ "')"))
  | JNull =>
      Throw (TypeError ("Cannot read properties of null (reading '" ++ k ++ "')"))
  | JObj props => Normal (obj_get props k)
  | JErr name message =>
      Normal (if String.eqb k "message" then JStr message
              else if String.eqb k "name" then JStr name
              else JUndefined)
  | JBool _ | JNum _ | JStr _ | JArr _ | JFun _ => Normal JUndefined
  end.

(** The binding of [k] in a destructuring [const { k } = e], which throws
    on [undefined] and [null] before any property is read. *)
Definition destructure (e : JSValue) (k : string) : Completion JSValue :=
  match e with
  | JUndefined =>
      Throw (TypeError ("Cannot destructure property '" ++ k ++ "' of 'e' as it is undefined."))
  | JNull =>
      Throw (TypeError ("Cannot destructure property '" ++ k ++ "' of 'e' as it is null."))
  | _ => get_prop e k
  end.

(** ** Strings *)

(** [String.prototype.includes]. *)
Fixpoint includes (s search : string) : bool :=
  if String.prefix search s then true
  else match s with
       | EmptyString => false
       | String _ rest => includes rest search
       end.

Definition lower_char (c : ascii) : ascii :=
  let n := nat_of_ascii c in
  if (65 <=? n)%nat && (n <=? 90)%nat then ascii_of_nat (n + 32) else c.

Fixpoint lowercase (s : string) : string :=
  match s with
  | EmptyString => EmptyString
  | String c rest => String (lower_char c) (lowercase rest)
  end.

Fixpoint join (sep : string) (l : list string) : string :=
  match l with
  | [] => EmptyString
  | [x] => x
  | x :: rest => x ++ sep ++ join sep rest
  end.

(** ** JSON.stringify *)

Definition dquote : string := String (ascii_of_nat 34) EmptyString.
Definition backslash : string := String (ascii_of_nat 92) EmptyString.
Definition newline : string := String (ascii_of_nat 10) EmptyString.

Definition hex_digit (n : nat) : ascii :=
  if (n <? 10)%nat then ascii_of_nat (48 + n) else ascii_of_nat (87 + n).

Definition quote_char (c : ascii) : string :=
  let n := nat_of_ascii c in
  if (n =? 34)%nat then backslash ++ dquote
  else if (n =? 92)%nat then backslash ++ backslash
  else if (n =? 8)%nat then backslash ++ "b"
  else if (n =? 9)%nat then backslash ++ "t"
  else if (n =? 10)%nat then backslash ++ "n"
  else if (n =? 12)%nat then backslash ++ "f"
  else if (n =? 13)%nat then backslash ++ "r"
  else if (n <? 32)%nat then
    backslash ++ "u00" ++ String (hex_digit (n / 16)) (String (hex_digit (n mod 16)) EmptyString)
  else String c EmptyString.

Fixpoint quote_chars (s : string) : string :=
  match s with
  | EmptyString => EmptyString
  | String c rest => quote_char c ++ quote_chars rest
  end.

(** [QuoteJSONString]. *)
Definition QuoteJSONString (s : string) : string :=
  dquote ++ quote_chars s ++ dquote.

Definition wrap (open close gap indent stepback : string) (partial : list string)
  : string :=
  match partial with
  | [] => open ++ close
  | _ =>
      if is_empty gap then open ++ join "," partial ++ close
      else open ++ newline ++ indent
           ++ join ("," ++ newline ++ indent) partial
           ++ newline ++ stepback ++ close
  end.

(** [SerializeJSONProperty]: [None] stands for [undefined], the result for
    a value that JSON cannot represent.  Such a value is left out of an
    object and written [null] inside an array. *)
Fixpoint SerializeJSONProperty (gap indent : string) (v : JSValue) : option string :=
  match v with
  | JUndefined | JFun _ => None
  | JNull => Some "null"
  | JBool true => Some "true"
  | JBool false => Some "false"
  | JNum n => Some (string_of_Z n)
  | JStr s => Some (QuoteJSONString s)
  | JArr items =>
      let inner := indent ++ gap in
      let partial :=
        map (fun x => match SerializeJSONProperty gap inner x with
                      | Some s => s
                      | None => "null"
                      end) items in
      Some (wrap "[" "]" gap inner indent partial)
  | JObj props =>
      let inner := indent ++ gap in
      let partial :=
        flat_map (fun kv =>
                    match kv with
                    | (k, x) =>
                        match SerializeJSONProperty gap inner x with
                        | Some s =>
                            [QuoteJSONString k ++ ":"
                               ++ (if is_empty gap then EmptyString else " ") ++ s]
                        | None => []
                        end
                    end) props in
      Some (wrap "{" "}" gap inner indent partial)
  | JErr _ _ => Some "{}"
  end.

Fixpoint spaces (n : nat) : string :=
  match n with
  | O => EmptyString
  | S m => String " " (spaces m)
  end.

(** [JSON.stringify(value, null, space)] for a numeric [space]. *)
Definition JSON_stringify (value : JSValue) (space : nat) : option string :=
  SerializeJSONProperty (spaces (Nat.min space 10)) EmptyString value.

(** A body given to the [Response] constructor: [undefined] gives the
    empty body. *)
Definition body_of (s : option string) : string :=
  match s with Some b => b | None => EmptyString end.

(** Writing of expected JSON texts: every apostrophe stands for a double
    quote. *)
Fixpoint js (s : string) : string :=
  match s with
  | EmptyString => EmptyString
  | String c rest =>
      String (if (nat_of_ascii c =? 39)%nat then ascii_of_nat 34 else c) (js rest)
  end.


(** ** URLSearchParams and Headers *)

(** Splitting at every occurrence of a character. *)
Fixpoint split_on (sep : ascii) (s : string) : list string :=
  match s with
  | EmptyString => [EmptyString]
  | String c rest =>
      if Ascii.eqb c sep then EmptyString :: split_on sep rest
      else match split_on sep rest with
           | [] => [String c EmptyString]
           | w :: ws => String c w :: ws
           end
  end.

(** The part of [s] before the first [sep], and the part after it when
    there is one. *)
Fixpoint cut_at (sep : ascii) (s : string) : string * option string :=
  match s with
  | EmptyString => (EmptyString, None)
  | String c rest =>
      if Ascii.eqb c sep then (EmptyString, Some rest)
      else let (before, after) := cut_at sep rest in (String c before, after)
  end.

Definition hex_value (c : ascii) : option nat :=
  let n := nat_of_ascii c in
  if (48 <=? n)%nat && (n <=? 57)%nat then Some (n - 48)
  else if (65 <=? n)%nat && (n <=? 70)%nat then Some (n - 55)
  else if (97 <=? n)%nat && (n <=? 102)%nat then Some (n - 87)
  else None.

(** Percent-decoding of a form-urlencoded component, [+] read as a space.
    A [%] that two hexadecimal digits do not follow is kept. *)
Fixpoint form_decode (s : string) : string :=
  match s with
  | EmptyString => EmptyString
  | String c rest =>
      if (nat_of_ascii c =? 43)%nat then String " " (form_decode rest)
      else if (nat_of_ascii c =? 37)%nat then
        match rest with
        | String h (String l rest') =>
            match hex_value h, hex_value l with
            | Some a, Some b => String (ascii_of_nat (16 * a + b)) (form_decode rest')
            | _, _ => String c (form_decode rest)
            end
        | _ => String c (form_decode rest)
        end
      else String c (form_decode rest)
  end.

(** The application/x-www-form-urlencoded parser. *)
Definition parse_urlencoded (input : string) : list (string * string) :=
  flat_map (fun piece =>
              if is_empty piece then []
              else let (name, value) := cut_at "=" piece in
                   [(form_decode name,
                     match value with
                     | Some v => form_decode v
                     | None => EmptyString
                     end)])
           (split_on "&" input).

(** [new URLSearchParams(init)]: one leading [?] is dropped. *)
Definition URLSearchParams (init : string) : list (string * string) :=
  match init with
  | String c rest =>
      if (nat_of_ascii c =? 63)%nat then parse_urlencoded rest
      else parse_urlencoded init
  | EmptyString => []
  end.

(** [new URL(url).searchParams] for the URL of a request: the pairs of the
    query component, which lies between the first [?] and the fragment. *)
Definition URL_searchParams (url : string) : list (string * string) :=
  match snd (cut_at "?" (fst (cut_at "#" url))) with
  | Some query => parse_urlencoded query
  | None => []
  end.

(** [URLSearchParams.prototype.get]: the first value of the name, [None]
    for [null]. *)
Fixpoint URLSearchParams_get (params : list (string * string)) (name : string)
  : option string :=
  match params with
  | [] => None
  | (k, v) :: rest => if String.eqb k name then Some v else URLSearchParams_get rest name
  end.

Definition nullable (o : option string) : JSValue :=
  match o with Some s => JStr s | None => JNull end.

(** [Headers.prototype.get]: names match regardless of case and the values
    of a repeated name are joined; [None] for [null]. *)
Definition Headers_get (headers : list (string * string)) (name : string)
  : option string :=
  match map snd (filter (fun h => String.eqb (lowercase (fst h)) (lowercase name)) headers) with
  | [] => None
  | values => Some (join ", " values)
  end.

(** ** Requests and responses *)

(** The [Request] objects the handler receives.  [url] is the serialized
    URL, which [new URL] always accepts, [headers] the header list and
    [body] the text of the body stream. *)
Record Request : Type := {
  method : string;
  url : string;
  headers : list (string * string);
  body : string
}.

(** The [Response] objects the handler builds: the body and the members of
    the init object, as given to the constructor.  The constructor is the
    host's; it is run on them in [Hosted.createRequestHandler]. *)
Record Response : Type := {
  res_body : string;
  res_status : JSValue;
  res_headers : list (string * JSValue)
}.

(** The value of [localContext || context || request]. *)
Inductive ContextValue : Type :=
| CtxValue (v : JSValue)
| CtxRequest (r : Request).

(** The operation definition nodes of the graphql-js syntax tree, with the
    fields that are read here. *)
Inductive OperationTypeNode : Type := OpQuery | OpMutation | OpSubscription.

Definition operation_string (o : OperationTypeNode) : string :=
  match o with
  | OpQuery => "query"
  | OpMutation => "mutation"
  | OpSubscription => "subscription"
  end.

Record OperationDefinitionNode : Type := {
  operation : OperationTypeNode;
  op_name : option string
}.

(** The argument of [execute]. *)
Record ExecutionArgs (Schema Document : Type) : Type := {
  ea_schema : Schema;
  ea_document : Document;
  ea_variableValues : JSValue;
  ea_operationName : JSValue;
  ea_rootValue : JSValue;
  ea_contextValue : ContextValue;
  ea_fieldResolver : JSValue;
  ea_typeResolver : JSValue
}.
Arguments ea_schema {Schema Document} _.
Arguments ea_document {Schema Document} _.
Arguments ea_variableValues {Schema Document} _.
Arguments ea_operationName {Schema Document} _.
Arguments ea_rootValue {Schema Document} _.
Arguments ea_contextValue {Schema Document} _.
Arguments ea_fieldResolver {Schema Document} _.
Arguments ea_typeResolver {Schema Document} _.

(** The argument of the [extensions] function. *)
Record ExtensionsArgs (Document : Type) : Type := {
  xa_document : Document;
  xa_variables : JSValue;
  xa_operationName : JSValue;
  xa_result : JSValue;
  xa_context : JSValue
}.
Arguments xa_document {Document} _.
Arguments xa_variables {Document} _.
Arguments xa_operationName {Document} _.
Arguments xa_result {Document} _.
Arguments xa_context {Document} _.

(** ** The external collaborators

    What the package imports and does not define: the JSON parser of the
    host, and the parser, executor, error formatter and operation lookup of
    graphql-js.  Every function may throw. *)
Class Engine : Type := {
  Schema : Type;
  Document : Type;
  JSON_parse : string -> Completion JSValue;
  gqlParse : JSValue -> Completion Document;
  gqlExecute : ExecutionArgs Schema Document -> Completion JSValue;
  gqlFormatError : JSValue -> Completion JSValue;
  getOperationAST : Document -> JSValue -> option OperationDefinitionNode
}.

(** ** Evaluation with a store and exceptions

    A computation reads and updates a store and completes normally or
    throws.  [await] of a settled promise is sequencing: a rejection is a
    throw at the [await]. *)
Definition M (S A : Type) : Type := S -> Completion A * S.

Definition ret {S A : Type} (a : A) : M S A := fun st => (Normal a, st).

Definition throw {S A : Type} (e : JSValue) : M S A := fun st => (Throw e, st).

Definition bind {S A B : Type} (c : M S A) (k : A -> M S B) : M S B :=
  fun st =>
    match c st with
    | (Normal a, st') => k a st'
    | (Throw e, st') => (Throw e, st')
    end.

Definition try_catch {S A : Type} (c : M S A) (handler : JSValue -> M S A) : M S A :=
  fun st =>
    match c st with
    | (Normal a, st') => (Normal a, st')
    | (Throw e, st') => handler e st'
    end.

Definition lift {S A : Type} (c : Completion A) : M S A := fun st => (c, st).

Notation "x <- c ;; k" := (bind c (fun x => k))
  (at level 61, c at next level, right associativity).

(** [array.map(f)] for a callback that may throw. *)
Fixpoint map_M {S A B : Type} (f : A -> M S B) (l : list A) : M S (list B) :=
  match l with
  | [] => ret []
  | x :: rest => y <- f x ;; ys <- map_M f rest ;; ret (y :: ys)
  end.

(** The options object of [createRequestHandler].  A function-valued option
    that is left out is [None]. *)
Record Options {E : Engine} : Type := {
  allowOrigins : JSValue;
  context : JSValue;
  pretty : JSValue;
  validationRules : JSValue;
  rootValue : JSValue;
  fieldResolver : JSValue;
  typeResolver : JSValue;
  extensions : option (ExtensionsArgs Document -> Completion JSValue);
  customExecuteFn : option (ExecutionArgs Schema Document -> Completion JSValue);
  customParseFn : option (JSValue -> Completion Document);
  customFormatErrorFn : option (JSValue -> Completion JSValue);
  customValidateFn : option (Schema -> Document -> JSValue -> Completion (list JSValue))
}.

(** The result of [parseParams]. *)
Record ParsedParams : Type := {
  pp_query : JSValue;
  pp_variables : JSValue;
  pp_operationName : JSValue
}.

Section Handler.

Context {E : Engine}.

(** Calls to the outside that a run of the handler makes, in order. *)
Inductive Call : Type :=
| ReadBody
| CallParse (source : JSValue)
| CallGetOperationAST (document : Document) (operationName : JSValue)
| CallValidate (schema : Schema) (document : Document) (rules : JSValue)
| CallExecute (args : ExecutionArgs Schema Document)
| CallExtensions (args : ExtensionsArgs Document).

(** [bodyUsed] is the flag of the request's body stream. *)
Record Store : Type := {
  bodyUsed : bool;
  calls : list Call
}.

Definition log (c : Call) : M Store unit :=
  fun st => (Normal tt, {| bodyUsed := bodyUsed st; calls := (calls st ++ [c])%list |}).

(** *** parseParams.js *)

(** [request.text()]: consumes the body stream, and rejects when it was
    consumed before. *)
Definition Request_text (request : Request) : M Store string :=
  fun st =>
    if bodyUsed st then
      (Throw (TypeError "Body has already been consumed."), st)
    else
      (Normal (body request),
       {| bodyUsed := true; calls := (calls st ++ [ReadBody])%list |}).

(** [request.json()]. *)
Definition Request_json (request : Request) : M Store JSValue :=
  text <- Request_text request ;;
  lift (JSON_parse text).

(** [request.headers.get("Content-Type").includes(search)]: the method
    call throws on the [null] of a missing header. *)
Definition content_type_includes (request : Request) (search : string) : M Store bool :=
  match Headers_get (headers request) "Content-Type" with
  | Some value => ret (includes value search)
  | None => throw (TypeError "Cannot read properties of null (reading 'includes')")
  end.

(** [request.method === "POST" && ...includes(search)]. *)
Definition post_with (request : Request) (search : string) : M Store bool :=
  if String.eqb (method request) "POST" then content_type_includes request search
  else ret false.

(** [s ? t(s) : e] and [s || e] for the nullable string [s] that
    [URLSearchParams.get] returns. *)
Definition if_truthy {A : Type} (s : option string) (t : string -> A) (e : A) : A :=
  match s with
  | Some v => if is_empty v then e else t v
  | None => e
  end.

(** The three recognized encodings of a body, each the right-hand side
    of an assignment to [fromBody]. *)
Definition json_body (request : Request) : M Store JSValue :=
  Request_json request.

Definition form_body (request : Request) : M Store JSValue :=
  text <- Request_text request ;;
  let bodySearch := URLSearchParams text in
  variables <- if_truthy (URLSearchParams_get bodySearch "variables")
                 (fun v => lift (JSON_parse v))
                 (ret (nullable (URLSearchParams_get bodySearch "variables"))) ;;
  ret (JObj [("query", nullable (URLSearchParams_get bodySearch "query"));
             ("variables", variables);
             ("operationName", nullable (URLSearchParams_get bodySearch "operationName"))]).

Definition graphql_body (request : Request) : M Store JSValue :=
  text <- Request_text request ;;
  ret (JObj [("query", JStr text)]).

(** The [if]/[else if] chain that computes [fromBody], which starts as the
    empty object. *)
Definition fromBody_of (request : Request) : M Store JSValue :=
  json <- post_with request "application/json" ;;
  if json then json_body request
  else
    form <- post_with request "application/x-www-form-urlencoded" ;;
    if form then form_body request
    else
      graphql <- post_with request "application/graphql" ;;
      if graphql then graphql_body request
      else ret (JObj []).

(** The object literal that [parseParams] returns. *)
Definition merge (fromURL : list (string * string)) (fromBody : JSValue)
  : M Store ParsedParams :=
  query <- if_truthy (URLSearchParams_get fromURL "query")
             (fun v => ret (JStr v))
             (lift (get_prop fromBody "query")) ;;
  variables <- if_truthy (URLSearchParams_get fromURL "variables")
                 (fun v => lift (JSON_parse v))
                 (bv <- lift (get_prop fromBody "variables") ;;
                  match bv with
                  | JStr s => lift (JSON_parse s)
                  | _ => ret bv
                  end) ;;
  operationName <- if_truthy (URLSearchParams_get fromURL "operationName")
                     (fun v => ret (JStr v))
                     (lift (get_prop fromBody "operationName")) ;;
  ret {| pp_query := query; pp_variables := variables; pp_operationName := operationName |}.

Definition parseParams (request : Request) : M Store ParsedParams :=
  try_catch
    (let fromURL := URL_searchParams (url request) in
     fromBody <- fromBody_of request ;;
     merge fromURL fromBody)
    (fun parseError => throw (JObj [("status", JNum 400); ("error", parseError)])).

(** *** createHandler.js *)

Section RequestHandler.

Variable schema : Schema.
Variable options : Options.

(** The strategies after the defaults of the destructured parameter. *)
Definition execute : ExecutionArgs Schema Document -> Completion JSValue :=
  match customExecuteFn options with Some f => f | None => gqlExecute end.

Definition parse : JSValue -> Completion Document :=
  match customParseFn options with Some f => f | None => gqlParse end.

Definition formatError : JSValue -> Completion JSValue :=
  match customFormatErrorFn options with Some f => f | None => gqlFormatError end.

Definition validate : option (Schema -> Document -> JSValue -> Completion (list JSValue)) :=
  customValidateFn options.

Definition baseHeaders : list (string * JSValue) :=
  let base := [("Content-Type", JStr "application/json")] in
  if truthy (allowOrigins options)
  then obj_set base "Access-Control-Allow-Origin" (allowOrigins options)
  else base.

(** [pretty ? 2 : 0]. *)
Definition space : nat := if truthy (pretty options) then 2%nat else 0%nat.

(** [doc && doc.operation && doc.operation !== "query"]. *)
Definition is_not_query (doc : option OperationDefinitionNode) : bool :=
  match doc with
  | None => false
  | Some d =>
      truthy (JStr (operation_string (operation d)))
      && negb (String.eqb (operation_string (operation d)) "query")
  end.

(** [localContext || context || request]. *)
Definition contextValue_of (request : Request) (localContext : JSValue) : ContextValue :=
  if truthy localContext then CtxValue localContext
  else if truthy (context options) then CtxValue (context options)
  else CtxRequest request.

(** [errors.map(formatError)]: only an array has a [map] method. *)
Definition Array_map (f : JSValue -> Completion JSValue) (v : JSValue) : M Store JSValue :=
  match v with
  | JArr items => l <- map_M (fun x => lift (f x)) items ;; ret (JArr l)
  | _ => throw (TypeError "result.errors.map is not a function")
  end.

(** The thrown objects of the early exits. *)
Definition method_failure : JSValue :=
  JObj [("headers", JObj [("Allow", JStr "OPTIONS, GET, POST")]);
        ("status", JNum 405);
        ("error", JStr "GraphQL only supports GET and POST requests.")].

Definition query_failure : JSValue :=
  JObj [("status", JNum 400); ("error", JStr "Must provide query string.")].

Definition mutation_failure : JSValue :=
  JObj [("status", JNum 405);
        ("error", JStr "Can only perform a mutation operation from a POST request.");
        ("headers", JObj [("Allow", JStr "POST")])].

(** The [if (request.method === "GET")] statement. *)
Definition guard_GET (request : Request) (document : Document) (operationName : JSValue)
  : M Store unit :=
  if String.eqb (method request) "GET" then
    _ <- log (CallGetOperationAST document operationName) ;;
    let doc := getOperationAST document operationName in
    if is_not_query doc then throw mutation_failure
    else ret tt
  else ret tt.

(** The argument object of the call to [execute]. *)
Definition execute_args (request : Request) (localContext : JSValue)
  (document : Document) (variables operationName : JSValue)
  : ExecutionArgs Schema Document :=
  {| ea_schema := schema;
     ea_document := document;
     ea_variableValues := variables;
     ea_operationName := operationName;
     ea_rootValue := rootValue options;
     ea_contextValue := contextValue_of request localContext;
     ea_fieldResolver := fieldResolver options;
     ea_typeResolver := typeResolver options |}.

(** From the [if (validate)] statement to the extensions call: the result
    of [execute] and the result of [extensions]. *)
Definition run_document (request : Request) (localContext : JSValue)
  (document : Document) (variables operationName : JSValue)
  : M Store (JSValue * JSValue) :=
  _ <- match validate with
       | Some validate_fn =>
           _ <- log (CallValidate schema document (validationRules options)) ;;
           validationErrors <- lift (validate_fn schema document (validationRules options)) ;;
           if (0 <? length validationErrors)%nat then
             throw (JObj [("status", JNum 400); ("error", JArr validationErrors)])
           else ret tt
       | None => ret tt
       end ;;
  let args := execute_args request localContext document variables operationName in
  _ <- log (CallExecute args) ;;
  result <- lift (execute args) ;;
  extensionsResult <-
    match extensions options with
    | Some extensions_fn =>
        let xargs := {| xa_document := document;
                        xa_variables := variables;
                        xa_operationName := operationName;
                        xa_result := result;
                        xa_context := context options |} in
        _ <- log (CallExtensions xargs) ;;
        lift (extensions_fn xargs)
    | None => ret JUndefined
    end ;;
  ret (result, extensionsResult).

(** [document = parse(query)] in its own [try]. *)
Definition parse_document (query : JSValue) : M Store Document :=
  try_catch
    (_ <- log (CallParse query) ;; lift (parse query))
    (fun syntaxError =>
       throw (JObj [("status", JNum 400); ("error", JArr [syntaxError])])).

(** The body of the [try] block up to the extensions call. *)
Definition orchestrate (request : Request) (localContext : JSValue)
  : M Store (JSValue * JSValue) :=
  if negb (String.eqb (method request) "POST" || String.eqb (method request) "GET") then
    throw method_failure
  else
    params <- parseParams request ;;
    let query := pp_query params in
    let variables := pp_variables params in
    let operationName := pp_operationName params in
    if negb (truthy query) then throw query_failure
    else
      document <- parse_document query ;;
      _ <- guard_GET request document operationName ;;
      run_document request localContext document variables operationName.

(** The [return new Response(...)] that ends the [try] block, up to the
    arguments of the constructor. *)
Definition respond (result extensionsResult : JSValue) : M Store Response :=
  errors <- (e <- lift (get_prop result "errors") ;;
             if truthy e then Array_map formatError e else ret e) ;;
  data <- lift (get_prop result "data") ;;
  let text := JSON_stringify
                (JObj [("errors", errors); ("data", data); ("extensions", extensionsResult)])
                space in
  ret {| res_body := body_of text;
         res_status := if truthy data then JNum 200 else JNum 500;
         res_headers := baseHeaders |}.

(** [Array.isArray(reason) ? reason
      : [typeof reason === "object" ? reason : { message: reason }]]. *)
Definition error_list (reason : JSValue) : list JSValue :=
  match reason with
  | JArr items => items
  | _ => [if typeof_object reason then reason else JObj [("message", reason)]]
  end.

(** The [catch] block, up to the arguments of [new Response].
    Destructuring [e] reads its properties, which throws when [e] is
    [undefined] or [null]. *)
Definition fail (e : JSValue) : M Store Response :=
  status <- lift (destructure e "status") ;;
  error <- lift (destructure e "error") ;;
  headers <- lift (destructure e "headers") ;;
  let reason := js_or error e in
  errors <- map_M (fun x => lift (formatError x)) (error_list reason) ;;
  let text := JSON_stringify (JObj [("errors", JArr errors)]) space in
  ret {| res_body := body_of text;
         res_status := js_or status (JNum 500);
         res_headers := obj_spread baseHeaders headers |}.

(** The handler that [createRequestHandler(schema, options)] returns, for
    a caller that passes the request and the per-call context ([undefined]
    when it has none). *)
Definition createRequestHandler (request : Request) (localContext : JSValue)
  : M Store Response :=
  if String.eqb (method request) "OPTIONS" && truthy (allowOrigins options) then
    ret {| res_body := EmptyString;
           res_status := JNum 204;
           res_headers := [("Allow", JStr "OPTIONS, GET, POST");
                           ("Access-Control-Allow-Methods", JStr "OPTIONS, GET, POST");
                           ("Access-Control-Allow-Origin", allowOrigins options)] |}
  else
    try_catch
      (r <- orchestrate request localContext ;;
       respond (fst r) (snd r))
      fail.

End RequestHandler.

End Handler.

(** The default of the options parameter. *)
Definition defaultOptions {E : Engine} : Options := {|
  allowOrigins := JUndefined;
  context := JUndefined;
  pretty := JBool false;
  validationRules := JArr [];
  rootValue := JUndefined;
  fieldResolver := JUndefined;
  typeResolver := JUndefined;
  extensions := None;
  customExecuteFn := None;
  customParseFn := None;
  customFormatErrorFn := None;
  customValidateFn := None
|}.

Definition fresh {E : Engine} : Store := {| bodyUsed := false; calls := [] |}.

(** ** A test engine

    A small engine in the manner of the package's test suite: a document is
    the list of its operation definitions, the schema has the single
    field [test] which resolves to [Hello World], and the mutation
    [writeTest]. *)
Module TestEngine.

Definition GraphQLError (message : string) : JSValue := JErr "GraphQLError" message.

Definition parse_source (source : JSValue) : Completion (list OperationDefinitionNode) :=
  match source with
  | JStr s =>
      if String.eqb s "{test}" then
        Normal [{| operation := OpQuery; op_name := None |}]
      else if String.eqb s "mutation TestMutation { writeTest { test } }" then
        Normal [{| operation := OpMutation; op_name := Some "TestMutation" |}]
      else if String.eqb s "query TestQuery { test } mutation TestMutation { writeTest { test } }" then
        Normal [{| operation := OpQuery; op_name := Some "TestQuery" |};
                {| operation := OpMutation; op_name := Some "TestMutation" |}]
      else Throw (GraphQLError "Syntax Error: Unexpected Name.")
  | _ => Throw (GraphQLError "Syntax Error: Unexpected <EOF>.")
  end.

(** The lookup of graphql-js: without an operation name, the only
    operation of the document; with one, the operation of that name. *)
Fixpoint find_operation (found : option OperationDefinitionNode)
  (definitions : list OperationDefinitionNode) (operationName : JSValue)
  : option OperationDefinitionNode :=
  match definitions with
  | [] => found
  | definition :: rest =>
      match operationName with
      | JUndefined | JNull =>
          match found with
          | Some _ => None
          | None => find_operation (Some definition) rest operationName
          end
      | JStr n =>
          match op_name definition with
          | Some m => if String.eqb m n then Some definition
                      else find_operation found rest operationName
          | None => find_operation found rest operationName
          end
      | _ => find_operation found rest operationName
      end
  end.

Definition run (args : ExecutionArgs unit (list OperationDefinitionNode))
  : Completion JSValue :=
  match find_operation None (ea_document args) (ea_operationName args) with
  | Some {| operation := OpQuery |} =>
      Normal (JObj [("data", JObj [("test", JStr "Hello World")])])
  | Some _ =>
      Normal (JObj [("data", JObj [("writeTest", JObj [("test", JStr "Hello World")])])])
  | None =>
      Normal (JObj [("errors",
                     JArr [GraphQLError
                             match ea_operationName args, ea_document args with
                             | JStr name, _ => js ("Unknown operation named '" ++ name ++ "'.")
                             | _, [] => "Must provide an operation."
                             | _, _ => "Must provide operation name if query contains multiple operations."
                             end])])
  end.

Definition format (error : JSValue) : Completion JSValue :=
  match get_prop error "message" with
  | Normal message =>
      Normal (JObj [("message", js_or message (JStr "An unknown error occurred."))])
  | Throw _ => Throw (JErr "Error" "Received null or undefined error.")
  end.

Definition two_operations : string :=
  "query TestQuery { test } mutation TestMutation { writeTest { test } }".

(** The JSON body that sends [two_operations] and names the mutation. *)
Definition naming_the_mutation : string :=
  js ("{'query':'" ++ two_operations ++ "','operationName':'TestMutation'}").

(** A JSON parser that knows the few texts the examples use. *)
Definition parse_json (text : string) : Completion JSValue :=
  if String.eqb text (js "{'query':'{test}'}") then
    Normal (JObj [("query", JStr "{test}")])
  else if String.eqb text naming_the_mutation then
    Normal (JObj [("query", JStr two_operations); ("operationName", JStr "TestMutation")])
  else if String.eqb text (js "{'who':'Dolly'}") then
    Normal (JObj [("who", JStr "Dolly")])
  else if String.eqb text "null" then Normal JNull
  else Throw (JErr "SyntaxError" "Unexpected token in JSON").

#[export] Instance engine : Engine := {|
  Schema := unit;
  Document := list OperationDefinitionNode;
  JSON_parse := parse_json;
  gqlParse := parse_source;
  gqlExecute := run;
  gqlFormatError := format;
  getOperationAST := find_operation None
|}.

Definition get (url : string) : Request :=
  {| method := "GET"; url := url; headers := []; body := EmptyString |}.

Definition post (url content_type body : string) : Request :=
  {| method := "POST"; url := url;
     headers := [("Content-Type", content_type)]; body := body |}.

(** A POST request without headers and without a body. *)
Definition bare_post (url : string) : Request :=
  {| method := "POST"; url := url; headers := []; body := EmptyString |}.

Definition handler : Request -> JSValue -> M Store Response :=
  createRequestHandler tt defaultOptions.

(** Options that set an origin, an extensions function or an execute
    function and leave the rest at the defaults. *)
Definition options_with (origin : JSValue)
  (extensions_fn : option (ExtensionsArgs Document -> Completion JSValue))
  (execute_fn : option (ExecutionArgs Schema Document -> Completion JSValue))
  : Options := {|
  allowOrigins := origin;
  context := JUndefined;
  pretty := JBool false;
  validationRules := JArr [];
  rootValue := JUndefined;
  fieldResolver := JUndefined;
  typeResolver := JUndefined;
  extensions := extensions_fn;
  customExecuteFn := execute_fn;
  customParseFn := None;
  customFormatErrorFn := None;
  customValidateFn := None
|}.

(** [customExecuteFn: () => { throw undefined }]. *)
Definition throwing_undefined : Options :=
  options_with JUndefined None (Some (fun _ => Throw JUndefined)).

(** [customExecuteFn: () => { throw "boom" }]. *)
Definition throwing_string : Options :=
  options_with JUndefined None (Some (fun _ => Throw (JStr "boom"))).

(** [extensions: () => "hello"]. *)
Definition string_extensions : Options :=
  options_with JUndefined (Some (fun _ => Normal (JStr "hello"))) None.

(** [extensions: () => ({ eventually: 42 })]. *)
Definition object_extensions : Options :=
  options_with JUndefined (Some (fun _ => Normal (JObj [("eventually", JNum 42)]))) None.

(** A result with data beside an error, as a resolver that throws on a
    nullable field gives. *)
Definition partial_result : JSValue :=
  JObj [("errors", JArr [GraphQLError "Throws!"]);
        ("data", JObj [("thrower", JNull)])].

Definition partial_data : Options :=
  options_with JUndefined None (Some (fun _ => Normal partial_result)).

(** [allowOrigins: "*"]. *)
Definition any_origin : Options := options_with (JStr "*") None None.

(** The URLs and requests of the scenarios. *)
Definition endpoint : string := "http://localhost/graphql".

Definition test_url : string := "http://localhost/graphql?query=%7Btest%7D".

Definition mutation_url : string :=
  "http://localhost/graphql?query=mutation+TestMutation+%7B+writeTest+%7B+test+%7D+%7D".

Definition two_operations_url : string :=
  "http://localhost/graphql?query=query+TestQuery+%7B+test+%7D+mutation+TestMutation+%7B+writeTest+%7B+test+%7D+%7D".

Definition with_method (name url : string) : Request :=
  {| method := name; url := url; headers := []; body := EmptyString |}.

(** A GET request that carries a JSON content type and a body all the
    same. *)
Definition get_with_body : Request :=
  {| method := "GET"; url := test_url;
     headers := [("Content-Type", "application/json")];
     body := naming_the_mutation |}.

Definition test_document : list OperationDefinitionNode :=
  [{| operation := OpQuery; op_name := None |}].

Definition mutation_document : list OperationDefinitionNode :=
  [{| operation := OpMutation; op_name := Some "TestMutation" |}].

Definition foo_bar : JSValue := JObj [("foo", JStr "bar")].

End TestEngine.

(** * Properties *)

(** ** Substring containment *)

Definition contains (s search : string) : Prop :=
  exists before after, s = before ++ search ++ after.

Lemma prefix_iff (p s : string) :
  String.prefix p s = true <-> exists t, s = p ++ t.
Proof.
  revert s; induction p as [|a p IH]; intros s; simpl.
  - destruct s; simpl; split; eauto.
  - destruct s as [|b s]; simpl.
    + split; [discriminate | intros [t Ht]; discriminate].
    + destruct (ascii_dec a b) as [->|Hab].
      * rewrite IH. split; intros [t Ht]; exists t; congruence.
      * split; [discriminate | intros [t Ht]; congruence].
Qed.

Lemma includes_iff (s search : string) :
  includes s search = true <-> contains s search.
Proof.
  unfold contains. induction s as [|c s IH].
  - cbn [includes]. destruct (String.prefix search EmptyString) eqn:Hp.
    + apply prefix_iff in Hp as [t Ht]. split; [intros _|reflexivity].
      exists EmptyString, t. exact Ht.
    + split; [discriminate|]. intros [before [after H]].
      destruct before; [|discriminate]. simpl in H.
      assert (String.prefix search EmptyString = true) by (apply prefix_iff; eauto).
      congruence.
  - cbn [includes]. destruct (String.prefix search (String c s)) eqn:Hp.
    + apply prefix_iff in Hp as [t Ht]. split; [intros _|reflexivity].
      exists EmptyString, t. exact Ht.
    + rewrite IH. split.
      * intros [before [after H]]. exists (String c before), after.
        simpl. now rewrite H.
      * intros [before [after H]]. destruct before as [|c' before].
        -- simpl in H.
           assert (String.prefix search (String c s) = true) by (apply prefix_iff; eauto).
           congruence.
        -- simpl in H. injection H as _ H. eauto.
Qed.

Lemma includes_false_iff (s search : string) :
  includes s search = false <-> ~ contains s search.
Proof.
  rewrite <- includes_iff. destruct (includes s search); split; congruence.
Qed.

(** ** Computations that leave the store alone *)

Definition pure {S A : Type} (c : M S A) : Prop := forall st, snd (c st) = st.

Lemma pure_ret {S A : Type} (a : A) : pure (@ret S A a).
Proof. intros st; reflexivity. Qed.

Lemma pure_throw {S A : Type} (e : JSValue) : pure (@throw S A e).
Proof. intros st; reflexivity. Qed.

Lemma pure_lift {S A : Type} (c : Completion A) : pure (@lift S A c).
Proof. intros st; reflexivity. Qed.

Lemma pure_bind {S A B : Type} (c : M S A) (k : A -> M S B) :
  pure c -> (forall a, pure (k a)) -> pure (bind c k).
Proof.
  intros Hc Hk st. unfold bind. specialize (Hc st).
  destruct (c st) as [[a|e] st1]; simpl in *; subst; [apply Hk | reflexivity].
Qed.

Lemma pure_try_catch {S A : Type} (c : M S A) (h : JSValue -> M S A) :
  pure c -> (forall e, pure (h e)) -> pure (try_catch c h).
Proof.
  intros Hc Hh st. unfold try_catch. specialize (Hc st).
  destruct (c st) as [[a|e] st1]; simpl in *; subst; [reflexivity | apply Hh].
Qed.

Lemma pure_map_M {S A B : Type} (f : A -> M S B) (l : list A) :
  (forall x, pure (f x)) -> pure (map_M f l).
Proof.
  intros Hf. induction l as [|x l IH]; simpl.
  - apply pure_ret.
  - apply pure_bind; [apply Hf|]. intros y.
    apply pure_bind; [apply IH|]. intros ys. apply pure_ret.
Qed.

Lemma bind_Normal {S A B : Type} (c : M S A) (k : A -> M S B) (st st' : S) (b : B) :
  bind c k st = (Normal b, st') ->
  exists a st1, c st = (Normal a, st1) /\ k a st1 = (Normal b, st').
Proof.
  unfold bind. destruct (c st) as [[a|e] st1]; [eauto | discriminate].
Qed.

Lemma bind_step {S A B : Type} (c : M S A) (k : A -> M S B) (st st1 : S) (a : A) :
  c st = (Normal a, st1) -> bind c k st = k a st1.
Proof. unfold bind. now intros ->. Qed.

Lemma bind_Throw {S A B : Type} (c : M S A) (k : A -> M S B) (st st1 : S) e :
  c st = (Throw e, st1) -> bind c k st = (Throw e, st1).
Proof. unfold bind. now intros ->. Qed.

Create HintDb pure.

#[local] Hint Resolve pure_ret pure_throw pure_lift pure_bind pure_try_catch pure_map_M
  : pure.

(** ** The parameter resolver *)

Section ParseParamsProperties.

Context {E : Engine}.

Lemma if_truthy_supplied {A : Type} (s : option string) (t : string -> A) (e : A) v :
  s = Some v -> v <> EmptyString -> if_truthy s t e = t v.
Proof.
  intros -> Hv. unfold if_truthy. destruct v; [congruence | reflexivity].
Qed.

Lemma if_truthy_omitted {A : Type} (s : option string) (t : string -> A) (e : A) :
  s = None \/ s = Some EmptyString -> if_truthy s t e = e.
Proof. intros [-> | ->]; reflexivity. Qed.

Lemma if_truthy_cases (s : option string) :
  (exists v, s = Some v /\ v <> EmptyString) \/ (s = None \/ s = Some EmptyString).
Proof.
  destruct s as [[|c v]|]; eauto.
  left. eexists; split; [reflexivity | discriminate].
Qed.

(** The object literal is built without touching the store. *)
Lemma pure_if_truthy {A : Type} (s : option string) (t : string -> M Store A) e :
  (forall v, pure (t v)) -> pure e -> pure (if_truthy s t e).
Proof. intros Ht He. unfold if_truthy. destruct s as [[|c v]|]; simpl; auto. Qed.

Lemma pure_merge fromURL fromBody : pure (merge fromURL fromBody).
Proof.
  unfold merge.
  repeat (apply pure_bind; [|intros ?]);
    try apply pure_if_truthy; intros; auto with pure.
  apply pure_bind; [auto with pure|]. intros bv. destruct bv; auto with pure.
Qed.

Lemma merge_store fromURL fromBody (st : Store) :
  snd (merge fromURL fromBody st) = st.
Proof. apply pure_merge. Qed.

Lemma post_with_not_POST request search (st : Store) :
  method request <> "POST" -> post_with request search st = (Normal false, st).
Proof.
  intros H. unfold post_with.
  destruct (String.eqb_spec (method request) "POST"); [contradiction | reflexivity].
Qed.

Lemma post_with_POST request search value (st : Store) :
  method request = "POST" ->
  Headers_get (headers request) "Content-Type" = Some value ->
  post_with request search st = (Normal (includes value search), st).
Proof.
  intros Hm Hh. unfold post_with, content_type_includes.
  rewrite Hm, Hh. reflexivity.
Qed.

Lemma fromBody_of_not_POST request (st : Store) :
  method request <> "POST" -> fromBody_of request st = (Normal (JObj []), st).
Proof.
  intros H. unfold fromBody_of, bind.
  rewrite !post_with_not_POST by assumption. reflexivity.
Qed.

(** A successful resolution is a successful reading of the body followed
    by a successful merge. *)
Lemma parseParams_Normal request (st st' : Store) params :
  parseParams request st = (Normal params, st') ->
  exists fromBody,
    fromBody_of request st = (Normal fromBody, st')
    /\ merge (URL_searchParams (url request)) fromBody st' = (Normal params, st').
Proof.
  unfold parseParams, try_catch, bind, throw.
  destruct (fromBody_of request st) as [[fromBody|e] st1] eqn:Hb; [|discriminate].
  pose proof (merge_store (URL_searchParams (url request)) fromBody st1) as Hs.
  destruct (merge (URL_searchParams (url request)) fromBody st1) as [[p|e] st2] eqn:Hm;
    [|discriminate].
  simpl in Hs. subst st2. intros H. injection H as -> ->. eauto.
Qed.

(** X5.  Whatever [parseParams] throws is an object with status 400 that
    carries the error. *)
Lemma parseParams_Throw request (st st' : Store) e :
  parseParams request st = (Throw e, st') ->
  exists parseError, e = JObj [("status", JNum 400); ("error", parseError)].
Proof.
  unfold parseParams, try_catch, bind, throw.
  destruct (fromBody_of request st) as [[fromBody|e1] st1].
  - destruct (merge _ fromBody st1) as [[p|e2] st2]; [discriminate|].
    intros H. injection H as <- _. eauto.
  - intros H. injection H as <- _. eauto.
Qed.

(** A URL parameter counts for the merge when its value is not empty. *)
Definition supplies (params : list (string * string)) (name value : string) : Prop :=
  URLSearchParams_get params name = Some value /\ value <> EmptyString.

Definition omits (params : list (string * string)) (name : string) : Prop :=
  URLSearchParams_get params name = None
  \/ URLSearchParams_get params name = Some EmptyString.

Lemma supplies_or_omits params name :
  (exists value, supplies params name value) \/ omits params name.
Proof. apply if_truthy_cases. Qed.

Lemma supplies_omits params name value :
  supplies params name value -> omits params name -> False.
Proof. intros [H1 H2] [H|H]; congruence. Qed.

Lemma supplies_fun params name v w :
  supplies params name v -> supplies params name w -> v = w.
Proof. intros [H1 _] [H2 _]; congruence. Qed.

(** The variables that the body contributes: a string is decoded. *)
Definition body_variables (fromBody variables : JSValue) : Prop :=
  exists bv, get_prop fromBody "variables" = Normal bv
             /\ match bv with
                | JStr s => JSON_parse s = Normal variables
                | _ => variables = bv
                end.

(** The merge of the URL parameters with the body's, field by field: a
    field that the URL supplies is the URL's, a field that it omits is the
    body's. *)
Definition merged (fromURL : list (string * string)) (fromBody : JSValue)
  (params : ParsedParams) : Prop :=
  (forall v, supplies fromURL "query" v -> pp_query params = JStr v)
  /\ (omits fromURL "query" -> get_prop fromBody "query" = Normal (pp_query params))
  /\ (forall v, supplies fromURL "variables" v -> JSON_parse v = Normal (pp_variables params))
  /\ (omits fromURL "variables" -> body_variables fromBody (pp_variables params))
  /\ (forall v, supplies fromURL "operationName" v -> pp_operationName params = JStr v)
  /\ (omits fromURL "operationName" ->
      get_prop fromBody "operationName" = Normal (pp_operationName params)).

Lemma merge_Normal fromURL fromBody (st st' : Store) params :
  merge fromURL fromBody st = (Normal params, st') ->
  merged fromURL fromBody params.
Proof.
  intros H. unfold merge in H.
  apply bind_Normal in H as (query0 & st1 & Hq & H).
  apply bind_Normal in H as (variables0 & st2 & Hv & H).
  apply bind_Normal in H as (operationName0 & st3 & Ho & H).
  injection H as <- _. unfold merged. simpl.
  repeat split.
  - intros v [Hs Hne]. rewrite (if_truthy_supplied _ _ _ _ Hs Hne) in Hq.
    now injection Hq as <- _.
  - intros Hom. rewrite (if_truthy_omitted _ _ _ Hom) in Hq.
    unfold lift in Hq. now injection Hq as -> _.
  - intros v [Hs Hne]. rewrite (if_truthy_supplied _ _ _ _ Hs Hne) in Hv.
    unfold lift in Hv. now injection Hv as -> _.
  - intros Hom. rewrite (if_truthy_omitted _ _ _ Hom) in Hv.
    apply bind_Normal in Hv as (bv & st4 & Hb & Hv).
    unfold lift in Hb. injection Hb as Hb _.
    exists bv. split; [assumption|].
    destruct bv; unfold lift, ret in Hv; injection Hv as Hv _; congruence.
  - intros v [Hs Hne]. rewrite (if_truthy_supplied _ _ _ _ Hs Hne) in Ho.
    now injection Ho as <- _.
  - intros Hom. rewrite (if_truthy_omitted _ _ _ Hom) in Ho.
    unfold lift in Ho. now injection Ho as -> _.
Qed.

(** The same request with other headers and another body. *)
Definition with_payload (request : Request) (headers' : list (string * string))
  (body' : string) : Request :=
  {| method := method request; url := url request; headers := headers'; body := body' |}.

(** C10.  For a request whose method is not POST, [parseParams] leaves the
    store as it found it: the body stream is not consumed and no read of
    the body is made.  Its outcome is the same for every header list and
    every body, so the parameters come from the URL alone. *)
Theorem non_POST_body_unread request (st : Store) :
  method request <> "POST" ->
  snd (parseParams request st) = st
  /\ forall headers' body',
      parseParams (with_payload request headers' body') st = parseParams request st.
Proof.
  intros Hm. split.
  - unfold parseParams. apply pure_try_catch; [|auto with pure].
    apply pure_bind; [|intros; apply pure_merge].
    intros st0. now rewrite fromBody_of_not_POST.
  - intros headers' body'. unfold parseParams, try_catch, bind.
    rewrite !fromBody_of_not_POST by assumption. reflexivity.
Qed.

(** C9.  For a POST request the Content-Type header is recognized by
    containment, and the body is read once and parsed by what was
    recognized.  A value that contains [application/json] anywhere makes
    the body's contribution the JSON value of its text, or the error of the
    JSON parser.  Otherwise a value that contains
    [application/x-www-form-urlencoded] makes it the object of the form's
    [query], [variables] and [operationName], each [null] when the form
    has no such name, the variables JSON-decoded when they are not empty.
    Otherwise a value that contains [application/graphql] makes it the
    object whose [query] is the text of the body. *)
Theorem content_type_by_containment request value (st : Store) :
  method request = "POST" ->
  Headers_get (headers request) "Content-Type" = Some value ->
  bodyUsed st = false ->
  let read := {| bodyUsed := true; calls := (calls st ++ [ReadBody])%list |} in
  let bodySearch := URLSearchParams (body request) in
  let fields variables :=
    JObj [("query", nullable (URLSearchParams_get bodySearch "query"));
          ("variables", variables);
          ("operationName", nullable (URLSearchParams_get bodySearch "operationName"))] in
  (contains value "application/json" ->
   fromBody_of request st = (JSON_parse (body request), read))
  /\ (~ contains value "application/json" ->
      contains value "application/x-www-form-urlencoded" ->
      fromBody_of request st
      = (match URLSearchParams_get bodySearch "variables" with
         | None => Normal (fields JNull)
         | Some v =>
             if is_empty v then Normal (fields (JStr EmptyString))
             else match JSON_parse v with
                  | Normal decoded => Normal (fields decoded)
                  | Throw parseError => Throw parseError
                  end
         end, read))
  /\ (~ contains value "application/json" ->
      ~ contains value "application/x-www-form-urlencoded" ->
      contains value "application/graphql" ->
      fromBody_of request st = (Normal (JObj [("query", JStr (body request))]), read)).
Proof.
  intros Hm Hh Hb read bodySearch fields. unfold fromBody_of.
  repeat split.
  - intros Hj. apply includes_iff in Hj.
    rewrite (bind_step _ _ _ _ _ (post_with_POST _ _ _ st Hm Hh)), Hj.
    unfold json_body, Request_json, bind, Request_text, lift. rewrite Hb. reflexivity.
  - intros Hj Hf. apply includes_false_iff in Hj. apply includes_iff in Hf.
    rewrite (bind_step _ _ _ _ _ (post_with_POST _ _ _ st Hm Hh)), Hj.
    rewrite (bind_step _ _ _ _ _ (post_with_POST _ _ _ st Hm Hh)), Hf.
    unfold form_body, bind at 1. unfold Request_text. rewrite Hb.
    fold bodySearch. unfold if_truthy, bind, lift, ret.
    destruct (URLSearchParams_get bodySearch "variables") as [v|]; [|reflexivity].
    destruct v as [|c v]; [reflexivity|]. simpl is_empty. cbv iota.
    destruct (JSON_parse (String c v)); reflexivity.
  - intros Hj Hf Hg. apply includes_false_iff in Hj, Hf. apply includes_iff in Hg.
    rewrite (bind_step _ _ _ _ _ (post_with_POST _ _ _ st Hm Hh)), Hj.
    rewrite (bind_step _ _ _ _ _ (post_with_POST _ _ _ st Hm Hh)), Hf.
    rewrite (bind_step _ _ _ _ _ (post_with_POST _ _ _ st Hm Hh)), Hg.
    unfold graphql_body, bind, Request_text, ret. rewrite Hb. reflexivity.
Qed.

(** A POST request whose Content-Type contains none of the three names
    contributes the empty object, without reading the body. *)
Lemma fromBody_of_unrecognized request value (st : Store) :
  method request = "POST" ->
  Headers_get (headers request) "Content-Type" = Some value ->
  ~ contains value "application/json" ->
  ~ contains value "application/x-www-form-urlencoded" ->
  ~ contains value "application/graphql" ->
  fromBody_of request st = (Normal (JObj []), st).
Proof.
  intros Hm Hh Hj Hf Hg. apply includes_false_iff in Hj, Hf, Hg.
  unfold fromBody_of.
  rewrite (bind_step _ _ _ _ _ (post_with_POST _ _ _ st Hm Hh)), Hj.
  rewrite (bind_step _ _ _ _ _ (post_with_POST _ _ _ st Hm Hh)), Hf.
  rewrite (bind_step _ _ _ _ _ (post_with_POST _ _ _ st Hm Hh)), Hg. reflexivity.
Qed.

(** A POST request without a Content-Type header: the first test of the
    chain calls [includes] on [null], and [parseParams] throws the
    resulting error with status 400. *)
Lemma parseParams_missing_content_type request (st : Store) :
  method request = "POST" ->
  Headers_get (headers request) "Content-Type" = None ->
  parseParams request st
  = (Throw (JObj [("status", JNum 400);
                  ("error", TypeError "Cannot read properties of null (reading 'includes')")]),
     st).
Proof.
  intros Hm Hh.
  unfold parseParams, try_catch, bind, fromBody_of, bind, post_with, content_type_includes.
  rewrite Hm, Hh. reflexivity.
Qed.

End ParseParamsProperties.

(** ** The calls of a run

    [logs c P Q]: from every store, [c] appends calls that all satisfy [P]
    to the log, and a value it returns satisfies [Q]. *)

Section Logs.

Context {E : Engine}.

Definition logs {A : Type} (c : M Store A) (P : Call -> Prop) (Q : A -> Prop) : Prop :=
  forall st, exists new,
    calls (snd (c st)) = (calls st ++ new)%list
    /\ Forall P new
    /\ forall a, fst (c st) = Normal a -> Q a.

Lemma logs_pure {A : Type} (c : M Store A) P (Q : A -> Prop) :
  pure c -> (forall st a, fst (c st) = Normal a -> Q a) -> logs c P Q.
Proof.
  intros Hp Hq st. exists []. rewrite Hp, app_nil_r. eauto.
Qed.

Lemma logs_ret {A : Type} (a : A) P (Q : A -> Prop) : Q a -> logs (ret a) P Q.
Proof.
  intros Ha. apply logs_pure; [apply pure_ret|].
  intros st b H. injection H as <-. exact Ha.
Qed.

Lemma logs_throw {A : Type} e P (Q : A -> Prop) : logs (throw e) P Q.
Proof. apply logs_pure; [apply pure_throw | discriminate]. Qed.

Lemma logs_lift {A : Type} (c : Completion A) P (Q : A -> Prop) :
  (forall a, c = Normal a -> Q a) -> logs (lift c) P Q.
Proof. intros H. apply logs_pure; [apply pure_lift | intros st a; apply H]. Qed.

Lemma logs_log c (P : Call -> Prop) (Q : unit -> Prop) :
  P c -> Q tt -> logs (log c) P Q.
Proof.
  intros Hc Hq st. exists [c]. simpl. repeat split; auto.
  intros []; auto.
Qed.

Lemma logs_bind {A B : Type} (c : M Store A) (k : A -> M Store B) P Q R :
  logs c P Q -> (forall a, Q a -> logs (k a) P R) -> logs (bind c k) P R.
Proof.
  intros Hc Hk st. destruct (Hc st) as (new & Hn & Hf & Hq).
  unfold bind. destruct (c st) as [[a|e] st1]; simpl in *.
  - destruct (Hk a (Hq a eq_refl) st1) as (new' & Hn' & Hf' & Hr).
    exists (new ++ new')%list. rewrite Hn', Hn, app_assoc.
    repeat split; auto. apply Forall_app; auto.
  - exists new. repeat split; auto. discriminate.
Qed.

Lemma logs_try_catch {A : Type} (c : M Store A) (h : JSValue -> M Store A) P Q :
  logs c P Q -> (forall e, logs (h e) P Q) -> logs (try_catch c h) P Q.
Proof.
  intros Hc Hh st. destruct (Hc st) as (new & Hn & Hf & Hq).
  unfold try_catch. destruct (c st) as [[a|e] st1]; simpl in *.
  - exists new. repeat split; auto.
  - destruct (Hh e st1) as (new' & Hn' & Hf' & Hr).
    exists (new ++ new')%list. rewrite Hn', Hn, app_assoc.
    repeat split; auto. apply Forall_app; auto.
Qed.

Lemma logs_weaken {A : Type} (c : M Store A) (P P' : Call -> Prop) (Q Q' : A -> Prop) :
  logs c P Q -> (forall x, P x -> P' x) -> (forall a, Q a -> Q' a) -> logs c P' Q'.
Proof.
  intros Hc HP HQ st. destruct (Hc st) as (new & Hn & Hf & Hq).
  exists new. repeat split; auto. eapply Forall_impl; eauto.
Qed.

(** A postcondition that holds of every returned value can be added. *)
Lemma logs_post {A : Type} (c : M Store A) P (Q Q' : A -> Prop) :
  logs c P Q -> (forall st a, fst (c st) = Normal a -> Q' a) ->
  logs c P (fun a => Q a /\ Q' a).
Proof.
  intros Hc HQ st. destruct (Hc st) as (new & Hn & Hf & Hq).
  exists new. repeat split; eauto.
Qed.

Lemma logs_Request_text request P (Q : string -> Prop) :
  P ReadBody -> (forall s, Q s) -> logs (Request_text request) P Q.
Proof.
  intros HP HQ st. unfold Request_text. destruct (bodyUsed st); simpl.
  - exists []. rewrite app_nil_r. auto.
  - exists [ReadBody]. auto.
Qed.

(** A test of the content type succeeds for POST requests only. *)
Lemma logs_post_with request search P :
  logs (post_with request search) P (fun b => b = true -> method request = "POST").
Proof.
  unfold post_with, content_type_includes.
  destruct (String.eqb_spec (method request) "POST") as [Hm|Hm].
  - destruct (Headers_get _ _); [now apply logs_ret | apply logs_throw].
  - apply logs_ret. discriminate.
Qed.

(** The only calls of [parseParams] are reads of the body, and it makes
    them for POST requests only. *)
Lemma logs_parseParams request :
  logs (parseParams request)
       (fun c => c = ReadBody /\ method request = "POST")
       (fun params => exists st st', parseParams request st = (Normal params, st')).
Proof.
  set (P := fun c => c = ReadBody /\ method request = "POST").
  assert (H : logs (parseParams request) P (fun _ => True)).
  { assert (Ht : method request = "POST" ->
                 logs (Request_text request) P (fun _ => True))
      by (intros Hm; apply logs_Request_text; unfold P; auto).
    unfold parseParams. apply logs_try_catch; [|intros; apply logs_throw].
    eapply logs_bind with (Q := fun _ => True).
    - unfold fromBody_of.
      eapply logs_bind; [apply logs_post_with|]. intros [] Hjson.
      + unfold json_body, Request_json.
        eapply logs_bind; [apply Ht; auto|]. intros; now apply logs_lift.
      + eapply logs_bind; [apply logs_post_with|]. intros [] Hform.
        * unfold form_body. eapply logs_bind; [apply Ht; auto|]. intros text _.
          eapply logs_bind with (Q := fun _ => True); [|intros; now apply logs_ret].
          apply logs_pure; [|auto].
          apply pure_if_truthy; auto with pure.
        * eapply logs_bind; [apply logs_post_with|]. intros [] Hgraphql.
          -- unfold graphql_body. eapply logs_bind; [apply Ht; auto|].
             intros; now apply logs_ret.
          -- now apply logs_ret.
    - intros fromBody _. apply logs_pure; [apply pure_merge | auto]. }
  assert (H' : forall st a, fst (parseParams request st) = Normal a ->
                 exists st0 st', parseParams request st0 = (Normal a, st')).
  { intros st a Ha. exists st, (snd (parseParams request st)).
    destruct (parseParams request st); simpl in *. now subst. }
  eapply logs_weaken; [apply (logs_post _ _ _ _ H H') | auto |].
  intros a [_ Ha]. exact Ha.
Qed.

End Logs.

(** ** The request handler *)

Section HandlerProperties.

Context {E : Engine}.
Variable schema : Schema.
Variable options : Options.

Lemma pure_Array_map f v : pure (Array_map f v).
Proof.
  destruct v; simpl; auto with pure.
Qed.

(** Building a response makes no call and leaves the body alone. *)
Lemma pure_respond result extensionsResult :
  pure (respond options result extensionsResult).
Proof.
  unfold respond.
  apply pure_bind.
  - apply pure_bind; auto with pure.
    intros e. destruct (truthy e); auto using pure_Array_map with pure.
  - intros errors. apply pure_bind; auto with pure.
Qed.

Lemma pure_fail e : pure (fail options e).
Proof.
  unfold fail. repeat (apply pure_bind; [auto with pure | intros ?]).
  auto with pure.
Qed.

(** What holds of the calls made for [request]: the body is read for a
    POST request only, and the argument of [execute] is built from
    parameters that [parseParams] returned for this request. *)
Definition from_request (request : Request) (localContext : JSValue) (c : Call) : Prop :=
  match c with
  | ReadBody => method request = "POST"
  | CallExecute args =>
      exists params st st' document,
        parseParams request st = (Normal params, st')
        /\ args = execute_args schema options request localContext document
                    (pp_variables params) (pp_operationName params)
  | _ => True
  end.

Lemma logs_orchestrate request localContext :
  logs (orchestrate schema options request localContext)
       (from_request request localContext) (fun _ => True).
Proof.
  unfold orchestrate.
  destruct (negb _); [apply logs_throw|].
  eapply logs_bind.
  { eapply logs_weaken; [apply logs_parseParams | | intros a Ha; exact Ha].
    intros c [-> Hm]. exact Hm. }
  intros params Hparams. simpl in Hparams.
  destruct (negb (truthy (pp_query params))); [apply logs_throw|].
  eapply logs_bind with (Q := fun _ => True).
  { unfold parse_document. apply logs_try_catch; [|intros; apply logs_throw].
    eapply logs_bind with (Q := fun _ => True);
      [now apply logs_log | intros; now apply logs_lift]. }
  intros document _.
  eapply logs_bind with (Q := fun _ => True).
  { unfold guard_GET. destruct (String.eqb _ _); [|now apply logs_ret].
    eapply logs_bind with (Q := fun _ => True); [now apply logs_log|].
    intros _ _. destruct (is_not_query _); [apply logs_throw | now apply logs_ret]. }
  intros _ _. unfold run_document.
  eapply logs_bind with (Q := fun _ => True).
  { destruct (validate options); [|now apply logs_ret].
    eapply logs_bind with (Q := fun _ => True); [now apply logs_log|].
    intros _ _. eapply logs_bind with (Q := fun _ => True); [now apply logs_lift|].
    intros errs _. destruct (0 <? _)%nat; [apply logs_throw | now apply logs_ret]. }
  intros _ _.
  eapply logs_bind with (Q := fun _ => True).
  { apply logs_log; [|exact I]. simpl.
    destruct Hparams as (st & st' & Hp). eauto 6. }
  intros _ _.
  eapply logs_bind with (Q := fun _ => True); [now apply logs_lift|].
  intros result _.
  eapply logs_bind with (Q := fun _ => True); [|intros; now apply logs_ret].
  destruct (extensions options); [|now apply logs_ret].
  eapply logs_bind with (Q := fun _ => True); [now apply logs_log|].
  intros; now apply logs_lift.
Qed.

Lemma logs_handler request localContext :
  logs (createRequestHandler schema options request localContext)
       (from_request request localContext) (fun _ => True).
Proof.
  unfold createRequestHandler.
  destruct (_ && _); [now apply logs_ret|].
  apply logs_try_catch.
  - eapply logs_bind; [apply logs_orchestrate|].
    intros r _. apply logs_pure; [apply pure_respond | auto].
  - intros e. apply logs_pure; [apply pure_fail | auto].
Qed.

(** C8, as amended.  In every run of the handler, the [contextValue] of a
    call to [execute] is chosen by precedence among three values: the
    per-call context when it is truthy, else the context of the options
    when that one is truthy, else the request object.  A context that is
    given but falsy is passed over like one that is not given. *)
Theorem context_precedence request localContext (st : Store) :
  exists new,
    calls (snd (createRequestHandler schema options request localContext st))
    = (calls st ++ new)%list
    /\ forall args, In (CallExecute args) new ->
         (truthy localContext = true ->
          ea_contextValue args = CtxValue localContext)
         /\ (truthy localContext = false -> truthy (context options) = true ->
             ea_contextValue args = CtxValue (context options))
         /\ (truthy localContext = false -> truthy (context options) = false ->
             ea_contextValue args = CtxRequest request).
Proof.
  destruct (logs_handler request localContext st) as (new & Hn & Hf & _).
  exists new. split; [exact Hn|].
  intros args Hin. rewrite Forall_forall in Hf.
  destruct (Hf _ Hin) as (params & st0 & st' & document & _ & ->).
  simpl. unfold contextValue_of.
  repeat split; intros; repeat match goal with H : truthy _ = _ |- _ => rewrite H end;
    reflexivity.
Qed.

(** X6.  In every run of the handler the body of the request is read for
    a POST request only. *)
Theorem body_read_only_for_POST request localContext (st : Store) :
  exists new,
    calls (snd (createRequestHandler schema options request localContext st))
    = (calls st ++ new)%list
    /\ (In ReadBody new -> method request = "POST").
Proof.
  destruct (logs_handler request localContext st) as (new & Hn & Hf & _).
  exists new. split; [exact Hn|].
  intros Hin. rewrite Forall_forall in Hf. exact (Hf _ Hin).
Qed.

(** C3, as amended.  A parameter that the URL supplies with a value that is
    not empty is taken from the URL (the variables after JSON decoding),
    and a parameter that the URL omits or leaves empty is taken from the
    body, each of [query], [variables] and [operationName] on its own.
    When the URL supplies an operation name, every call to [execute] is
    made with that name. *)
Theorem url_value_wins request :
  (forall (st st' : Store) params,
      parseParams request st = (Normal params, st') ->
      exists fromBody,
        fromBody_of request st = (Normal fromBody, st')
        /\ merged (URL_searchParams (url request)) fromBody params)
  /\ (forall localContext (st : Store) name,
        supplies (URL_searchParams (url request)) "operationName" name ->
        exists new,
          calls (snd (createRequestHandler schema options request localContext st))
          = (calls st ++ new)%list
          /\ forall args, In (CallExecute args) new ->
               ea_operationName args = JStr name).
Proof.
  split.
  - intros st st' params H.
    apply parseParams_Normal in H as (fromBody & Hb & Hm).
    exists fromBody. split; [exact Hb|]. eapply merge_Normal; eassumption.
  - intros localContext st name Hs.
    destruct (logs_handler request localContext st) as (new & Hn & Hf & _).
    exists new. split; [exact Hn|].
    intros args Hin. rewrite Forall_forall in Hf.
    destruct (Hf _ Hin) as (params & st0 & st' & document & Hp & ->).
    simpl. apply parseParams_Normal in Hp as (fromBody & _ & Hm).
    apply merge_Normal in Hm. now apply Hm.
Qed.

(** *** Running the handler *)

Lemma orchestrate_method request localContext (st st' : Store) r :
  orchestrate schema options request localContext st = (Normal r, st') ->
  method request = "POST" \/ method request = "GET".
Proof.
  unfold orchestrate.
  destruct (String.eqb_spec (method request) "POST"); [auto|].
  destruct (String.eqb_spec (method request) "GET"); [auto|].
  discriminate.
Qed.

Lemma no_preflight request :
  method request <> "OPTIONS" ->
  String.eqb (method request) "OPTIONS" && truthy (allowOrigins options) = false.
Proof.
  intros H. destruct (String.eqb_spec (method request) "OPTIONS"); [contradiction|].
  reflexivity.
Qed.

(** The handler after a pipeline that returned. *)
Lemma handler_respond request localContext (st st' : Store) result extensionsResult :
  orchestrate schema options request localContext st
  = (Normal (result, extensionsResult), st') ->
  createRequestHandler schema options request localContext st
  = try_catch (respond options result extensionsResult) (fail options) st'.
Proof.
  intros H. unfold createRequestHandler.
  rewrite no_preflight
    by (destruct (orchestrate_method _ _ _ _ _ H) as [-> | ->]; discriminate).
  unfold try_catch at 1, bind. rewrite H. reflexivity.
Qed.

(** The handler after a pipeline that threw. *)
Lemma handler_fail request localContext (st st' : Store) e :
  (String.eqb (method request) "OPTIONS" && truthy (allowOrigins options)) = false ->
  orchestrate schema options request localContext st = (Throw e, st') ->
  createRequestHandler schema options request localContext st = fail options e st'.
Proof.
  intros Hp H. unfold createRequestHandler. rewrite Hp.
  unfold try_catch, bind. rewrite H. reflexivity.
Qed.

Lemma map_M_total (f : JSValue -> Completion JSValue) (l : list JSValue) (st : Store) :
  Forall (fun x => exists y, f x = Normal y) l ->
  exists ys, map_M (fun x => lift (f x)) l st = (Normal ys, st).
Proof.
  induction 1 as [|x l [y Hy] _ [ys IH]]; simpl.
  - eexists; reflexivity.
  - exists (y :: ys). unfold bind, lift at 1. rewrite Hy, IH. reflexivity.
Qed.

(** *** The status of a result *)

(** An [ExecutionResult]: an object whose [data] is a map, [null] or
    absent and whose [errors] is a sequence or absent. *)
Definition ExecutionResult (result : JSValue) : Prop :=
  exists props,
    result = JObj props
    /\ (obj_get props "data" = JUndefined
        \/ obj_get props "data" = JNull
        \/ exists map, obj_get props "data" = JObj map)
    /\ (obj_get props "errors" = JUndefined
        \/ exists errors, obj_get props "errors" = JArr errors).

Definition errors_of (result : JSValue) : list JSValue :=
  match get_prop result "errors" with
  | Normal (JArr errors) => errors
  | _ => []
  end.

(** The [data] of the result is present and is not [null]. *)
Definition has_data (result : JSValue) : Prop :=
  exists data,
    get_prop result "data" = Normal data /\ data <> JUndefined /\ data <> JNull.

(** [formatError] returns on every error of the result. *)
Definition formats (result : JSValue) : Prop :=
  Forall (fun x => exists y, formatError options x = Normal y) (errors_of result).

Lemma respond_ExecutionResult result extensionsResult (st : Store) :
  ExecutionResult result -> formats result ->
  exists body,
    respond options result extensionsResult st
    = (Normal {| res_body := body;
                 res_status := if truthy (obj_get (own_enumerable result) "data")
                               then JNum 200 else JNum 500;
                 res_headers := baseHeaders options |}, st).
Proof.
  intros (props & -> & _ & Herrors) Hf.
  unfold formats, errors_of in Hf. unfold respond, bind, lift, ret. simpl in *.
  destruct Herrors as [He | [errors He]]; rewrite He in *; simpl.
  - eexists; reflexivity.
  - destruct (map_M_total _ _ st Hf) as [ys Hys].
    unfold bind, ret. rewrite Hys. eexists; reflexivity.
Qed.

(** C1.  When the pipeline hands an [ExecutionResult] to the response
    formatter, the response has status 200 if and only if the [data] of
    the result is present and not [null], whether or not there are errors
    beside it, and status 500 otherwise. *)
Theorem status_split request localContext (st st' : Store) result extensionsResult :
  orchestrate schema options request localContext st
  = (Normal (result, extensionsResult), st') ->
  ExecutionResult result ->
  formats result ->
  exists response,
    createRequestHandler schema options request localContext st = (Normal response, st')
    /\ (res_status response = JNum 200 <-> has_data result)
    /\ (~ has_data result -> res_status response = JNum 500).
Proof.
  intros Ho Hr Hf.
  destruct (respond_ExecutionResult result extensionsResult st' Hr Hf) as [body Hb].
  rewrite (handler_respond _ _ _ _ _ _ Ho). unfold try_catch. rewrite Hb.
  eexists. split; [reflexivity|]. simpl.
  destruct Hr as (props & -> & Hdata & _). unfold has_data. simpl.
  destruct Hdata as [Hd | [Hd | [map Hd]]]; rewrite Hd; simpl.
  - split; [split; [discriminate|] | reflexivity].
    intros (data & H & Hu & _). injection H as <-. contradiction.
  - split; [split; [discriminate|] | reflexivity].
    intros (data & H & _ & Hn). injection H as <-. contradiction.
  - split; [split; [intros _ | reflexivity] |].
    + eexists; repeat split; [discriminate | discriminate].
    + intros H. exfalso. apply H. eexists; repeat split; discriminate.
Qed.

(** *** Failures *)

(** The store after further calls. *)
Definition logged (st : Store) (more : list Call) : Store :=
  {| bodyUsed := bodyUsed st; calls := (calls st ++ more)%list |}.

(** The response to a thrown value. *)
Definition failure_response (formatted : list JSValue) (status headers : JSValue)
  : Response :=
  {| res_body := body_of (JSON_stringify (JObj [("errors", JArr formatted)]) (space options));
     res_status := js_or status (JNum 500);
     res_headers := obj_spread (baseHeaders options) headers |}.

(** The [catch] block on a thrown object that carries a message. *)
Lemma fail_message props message formatted (st : Store) :
  obj_get props "error" = JStr message ->
  message <> EmptyString ->
  formatError options (JObj [("message", JStr message)]) = Normal formatted ->
  fail options (JObj props) st
  = (Normal (failure_response [formatted] (obj_get props "status") (obj_get props "headers")),
     st).
Proof.
  intros He Hm Hf. unfold fail, bind, lift, ret, js_or. simpl. rewrite He. simpl.
  destruct message; [contradiction|]. simpl. unfold lift. rewrite Hf. reflexivity.
Qed.

Lemma spread_Allow value :
  obj_spread (baseHeaders options) (JObj [("Allow", value)])
  = (baseHeaders options ++ [("Allow", value)])%list.
Proof.
  unfold baseHeaders. destruct (truthy (allowOrigins options)); reflexivity.
Qed.

(** The pipeline up to the parsed document. *)
Lemma orchestrate_parsed request localContext (st st1 : Store) params document :
  method request = "POST" \/ method request = "GET" ->
  parseParams request st = (Normal params, st1) ->
  truthy (pp_query params) = true ->
  parse options (pp_query params) = Normal document ->
  orchestrate schema options request localContext st
  = (_ <- guard_GET request document (pp_operationName params) ;;
     run_document schema options request localContext document
       (pp_variables params) (pp_operationName params))
      (logged st1 [CallParse (pp_query params)]).
Proof.
  intros Hm Hp Hq Hd. unfold orchestrate.
  replace (negb (String.eqb (method request) "POST" || String.eqb (method request) "GET"))
    with false by (destruct Hm as [-> | ->]; reflexivity).
  rewrite (bind_step _ _ _ _ _ Hp), Hq. simpl.
  assert (Hpd : parse_document options (pp_query params) st1
                = (Normal document, logged st1 [CallParse (pp_query params)])).
  { unfold parse_document, try_catch, bind, log, lift. rewrite Hd. reflexivity. }
  rewrite (bind_step _ _ _ _ _ Hpd). reflexivity.
Qed.

(** C4.  For a GET request whose query parses to a document: when the
    operation that [getOperationAST] selects for the operation name is not
    a query, the pipeline fails with the mutation failure and the response
    has status 405, the formatted message [Can only perform a mutation
    operation from a POST request.] and the header [Allow: POST] beside
    the base headers; when no operation is selected, or the selected one is
    a query, the guard lets the pipeline continue with validation and
    execution. *)
Theorem GET_mutation_guard request localContext (st st1 : Store) params document :
  method request = "GET" ->
  parseParams request st = (Normal params, st1) ->
  truthy (pp_query params) = true ->
  parse options (pp_query params) = Normal document ->
  let st2 := logged st1 [CallParse (pp_query params);
                         CallGetOperationAST document (pp_operationName params)] in
  (forall op,
      getOperationAST document (pp_operationName params) = Some op ->
      operation op <> OpQuery ->
      orchestrate schema options request localContext st = (Throw mutation_failure, st2)
      /\ forall formatted,
          formatError options
            (JObj [("message",
                    JStr "Can only perform a mutation operation from a POST request.")])
          = Normal formatted ->
          createRequestHandler schema options request localContext st
          = (Normal
               {| res_body :=
                    body_of (JSON_stringify (JObj [("errors", JArr [formatted])])
                               (space options));
                  res_status := JNum 405;
                  res_headers := (baseHeaders options ++ [("Allow", JStr "POST")])%list |},
             st2))
  /\ (getOperationAST document (pp_operationName params) = None
      \/ (exists op, getOperationAST document (pp_operationName params) = Some op
                     /\ operation op = OpQuery) ->
      orchestrate schema options request localContext st
      = run_document schema options request localContext document
          (pp_variables params) (pp_operationName params) st2).
Proof.
  intros Hm Hp Hq Hd st2.
  pose proof (orchestrate_parsed request localContext st st1 params document
                (or_intror Hm) Hp Hq Hd) as Ho.
  assert (Hst : logged (logged st1 [CallParse (pp_query params)])
                  [CallGetOperationAST document (pp_operationName params)] = st2).
  { unfold st2, logged. simpl. now rewrite <- app_assoc. }
  split.
  - intros op Hop Hkind.
    assert (Ht : orchestrate schema options request localContext st
                 = (Throw mutation_failure, st2)).
    { rewrite Ho. apply bind_Throw. unfold guard_GET. rewrite Hm. simpl.
      unfold bind, log. simpl. rewrite Hop. unfold is_not_query.
      destruct (operation op); [contradiction | |]; simpl; unfold throw;
        rewrite <- Hst; reflexivity. }
    split; [exact Ht|]. intros formatted Hf.
    rewrite (handler_fail _ _ _ _ _ (no_preflight _ ltac:(rewrite Hm; discriminate)) Ht).
    unfold mutation_failure.
    erewrite fail_message; [| reflexivity | discriminate | exact Hf].
    unfold failure_response. simpl obj_get. rewrite spread_Allow. reflexivity.
  - intros Hnone. rewrite Ho.
    assert (Hg : guard_GET request document (pp_operationName params)
                   (logged st1 [CallParse (pp_query params)])
                 = (Normal tt, st2)).
    { rewrite <- Hst. unfold guard_GET. rewrite Hm. simpl.
      unfold bind, log. simpl.
      destruct Hnone as [-> | (op & -> & Hop)]; unfold is_not_query; [|rewrite Hop];
        reflexivity. }
    rewrite (bind_step _ _ _ _ _ Hg). reflexivity.
Qed.

(** C6.  An OPTIONS request, when an origin is configured: the handler
    returns at once, with the store untouched, the response with status
    204, the empty body and the three preflight headers.  When no origin is
    configured: the method check fails and the response has status 405 and
    the header [Allow: OPTIONS, GET, POST].  An origin is configured when
    [allowOrigins] is truthy. *)
Theorem OPTIONS_preflight request localContext (st : Store) :
  method request = "OPTIONS" ->
  (truthy (allowOrigins options) = true ->
   createRequestHandler schema options request localContext st
   = (Normal
        {| res_body := EmptyString;
           res_status := JNum 204;
           res_headers := [("Allow", JStr "OPTIONS, GET, POST");
                           ("Access-Control-Allow-Methods", JStr "OPTIONS, GET, POST");
                           ("Access-Control-Allow-Origin", allowOrigins options)] |},
      st))
  /\ (truthy (allowOrigins options) = false ->
      orchestrate schema options request localContext st = (Throw method_failure, st)
      /\ forall formatted,
          formatError options
            (JObj [("message", JStr "GraphQL only supports GET and POST requests.")])
          = Normal formatted ->
          createRequestHandler schema options request localContext st
          = (Normal
               {| res_body :=
                    body_of (JSON_stringify (JObj [("errors", JArr [formatted])])
                               (space options));
                  res_status := JNum 405;
                  res_headers := [("Content-Type", JStr "application/json");
                                  ("Allow", JStr "OPTIONS, GET, POST")] |},
             st)).
Proof.
  intros Hm. split; intros Ha.
  - unfold createRequestHandler. rewrite Hm, Ha. reflexivity.
  - assert (Ht : orchestrate schema options request localContext st
                 = (Throw method_failure, st)).
    { unfold orchestrate. rewrite Hm. reflexivity. }
    split; [exact Ht|]. intros formatted Hf.
    rewrite (handler_fail _ _ _ _ _ ltac:(rewrite Ha; apply andb_false_r) Ht).
    unfold method_failure.
    erewrite fail_message; [| reflexivity | discriminate | exact Hf].
    unfold failure_response, baseHeaders. rewrite Ha. reflexivity.
Qed.

(** *** Thrown values *)

(** The [catch] block on a thrown value whose properties can be read: the
    status is the carried one, or 500 when it is absent or falsy, and the
    headers are the base headers with the carried ones spread over them. *)
Lemma fail_Normal e status error headers formatted (st : Store) :
  destructure e "status" = Normal status ->
  destructure e "error" = Normal error ->
  destructure e "headers" = Normal headers ->
  map_M (fun x => lift (formatError options x)) (error_list (js_or error e)) st
  = (Normal formatted, st) ->
  fail options e st = (Normal (failure_response formatted status headers), st).
Proof.
  intros Hs He Hh Hf. unfold fail, bind. unfold lift at 1 2 3.
  rewrite Hs, He, Hh, Hf. reflexivity.
Qed.

Lemma destructure_total e k :
  e <> JUndefined -> e <> JNull ->
  exists v, destructure e k = Normal v /\ get_prop e k = Normal v.
Proof. intros Hu Hn. destruct e; simpl; eauto; contradiction. Qed.

(** A thrown [undefined] or [null] makes the [catch] block itself throw:
    the handler rejects. *)
Lemma handler_rejects request localContext (st st' : Store) e :
  (String.eqb (method request) "OPTIONS" && truthy (allowOrigins options)) = false ->
  orchestrate schema options request localContext st = (Throw e, st') ->
  e = JUndefined \/ e = JNull ->
  exists error, createRequestHandler schema options request localContext st
                = (Throw error, st').
Proof.
  intros Hp Ho He. rewrite (handler_fail _ _ _ _ _ Hp Ho).
  destruct He as [-> | ->]; eexists; reflexivity.
Qed.

(** *** A body that contributes nothing *)

(** X1.  A POST request whose Content-Type is present and names none of
    the three encodings, with no query in the URL and URL variables that
    are absent or decode: the pipeline fails with the query failure, the
    body unread. *)
Lemma unrecognized_content_type request localContext value (st : Store) :
  method request = "POST" ->
  Headers_get (headers request) "Content-Type" = Some value ->
  ~ contains value "application/json" ->
  ~ contains value "application/x-www-form-urlencoded" ->
  ~ contains value "application/graphql" ->
  omits (URL_searchParams (url request)) "query" ->
  (omits (URL_searchParams (url request)) "variables"
   \/ exists v w, supplies (URL_searchParams (url request)) "variables" v
                  /\ JSON_parse v = Normal w) ->
  orchestrate schema options request localContext st = (Throw query_failure, st).
Proof.
  intros Hm Hh Hj Hf Hg Hq Hv.
  assert (Hp : exists params,
             parseParams request st = (Normal params, st) /\ pp_query params = JUndefined).
  { unfold parseParams, try_catch.
    rewrite (bind_step _ _ _ _ _ (fromBody_of_unrecognized _ _ st Hm Hh Hj Hf Hg)).
    unfold merge. rewrite (if_truthy_omitted _ _ _ Hq).
    unfold bind at 1. unfold lift at 1. simpl get_prop.
    destruct Hv as [Hv | (v & w & [Hs Hne] & Hw)].
    - rewrite (if_truthy_omitted _ _ _ Hv). unfold bind at 1 2.
      unfold lift at 1. simpl.
      destruct (supplies_or_omits (URL_searchParams (url request)) "operationName")
        as [[o [Ho Hne]] | Ho].
      + rewrite (if_truthy_supplied _ _ _ _ Ho Hne). eexists; split; reflexivity.
      + rewrite (if_truthy_omitted _ _ _ Ho). eexists; split; reflexivity.
    - rewrite (if_truthy_supplied _ _ _ _ Hs Hne). unfold bind at 1.
      unfold lift at 1. rewrite Hw.
      destruct (supplies_or_omits (URL_searchParams (url request)) "operationName")
        as [[o [Ho Hne']] | Ho].
      + rewrite (if_truthy_supplied _ _ _ _ Ho Hne'). eexists; split; reflexivity.
      + rewrite (if_truthy_omitted _ _ _ Ho). eexists; split; reflexivity. }
  destruct Hp as (params & Hp & Hquery).
  unfold orchestrate.
  replace (negb (String.eqb (method request) "POST" || String.eqb (method request) "GET"))
    with false by (rewrite Hm; reflexivity).
  rewrite (bind_step _ _ _ _ _ Hp), Hquery. reflexivity.
Qed.

(** *** Extensions in the envelope *)

(** X4.  A value of the extensions function that JSON cannot represent
    ([undefined], a function) leaves the envelope without the key. *)
Lemma envelope_without_extensions errors data extensionsResult n :
  extensionsResult = JUndefined \/ (exists id, extensionsResult = JFun id) ->
  JSON_stringify (JObj [("errors", errors); ("data", data);
                        ("extensions", extensionsResult)]) n
  = JSON_stringify (JObj [("errors", errors); ("data", data)]) n.
Proof.
  intros [-> | [id ->]]; unfold JSON_stringify; simpl;
    now rewrite !app_nil_r.
Qed.

End HandlerProperties.

(** ** Object spread *)

Lemma obj_get_set props k v k' :
  obj_get (obj_set props k v) k' = if String.eqb k k' then v else obj_get props k'.
Proof.
  induction props as [|[k0 v0] rest IH]; simpl; [reflexivity|].
  destruct (String.eqb_spec k0 k) as [-> | Hk0]; simpl.
  - destruct (String.eqb k k'); reflexivity.
  - rewrite IH. destruct (String.eqb_spec k0 k') as [-> | Hk']; [|reflexivity].
    destruct (String.eqb_spec k k'); [congruence | reflexivity].
Qed.

Lemma spread_keeps a h k :
  obj_has h k = false ->
  obj_get (fold_left (fun acc kv => obj_set acc (fst kv) (snd kv)) h a) k = obj_get a k.
Proof.
  revert a; induction h as [|[k1 v1] h IH]; intros a Hh; simpl in *; [reflexivity|].
  apply orb_false_iff in Hh as [Hk Hh].
  rewrite IH by assumption. rewrite obj_get_set, Hk. reflexivity.
Qed.

Lemma spread_overrides a b h k :
  obj_has h k = true ->
  obj_get (fold_left (fun acc kv => obj_set acc (fst kv) (snd kv)) h a) k
  = obj_get (fold_left (fun acc kv => obj_set acc (fst kv) (snd kv)) h b) k.
Proof.
  revert a b; induction h as [|[k1 v1] h IH]; intros a b Hh; simpl in *; [discriminate|].
  destruct (obj_has h k) eqn:Hk.
  - now apply IH.
  - rewrite orb_false_r in Hh. rewrite !spread_keeps by assumption.
    rewrite !obj_get_set, Hh. reflexivity.
Qed.

(** X3.  In [{...baseHeaders, ...headers}] a name that the thrown headers
    carry has their value whatever the base headers are, and every other
    name keeps its base value. *)
Lemma thrown_headers_win base base' headers k :
  (obj_has (own_enumerable headers) k = true ->
   obj_get (obj_spread base headers) k = obj_get (obj_spread base' headers) k)
  /\ (obj_has (own_enumerable headers) k = false ->
      obj_get (obj_spread base headers) k = obj_get base k).
Proof.
  unfold obj_spread. split; intros H.
  - now apply spread_overrides.
  - now apply spread_keeps.
Qed.

(** * Scenarios *)

Import TestEngine.

Example stringify_compact :
  JSON_stringify
    (JObj [("errors", JUndefined);
           ("data", JObj [("test", JStr "Hello World"); ("n", JNum (-42))]);
           ("extensions", JArr [JNull; JBool true; JUndefined])]) 0
  = Some (js "{'data':{'test':'Hello World','n':-42},'extensions':[null,true,null]}").
Proof. reflexivity. Qed.

Example stringify_pretty :
  JSON_stringify (JObj [("data", JObj [("test", JStr "Hello World")])]) 2
  = Some ("{" ++ newline ++ js "  'data': {" ++ newline
          ++ js "    'test': 'Hello World'" ++ newline ++ "  }" ++ newline ++ "}").
Proof. reflexivity. Qed.

Example url_params_decoded :
  URL_searchParams "http://localhost/graphql?query=%7Btest%7D&operationName=&raw"
  = [("query", "{test}"); ("operationName", EmptyString); ("raw", EmptyString)].
Proof. reflexivity. Qed.

Example header_names_ignore_case :
  Headers_get [("content-type", "application/json")] "Content-Type"
  = Some "application/json".
Proof. reflexivity. Qed.

Example GET_query :
  fst (handler (get test_url) JUndefined fresh)
  = Normal {| res_body := js "{'data':{'test':'Hello World'}}";
              res_status := JNum 200;
              res_headers := [("Content-Type", JStr "application/json")] |}.
Proof. reflexivity. Qed.

Example POST_json :
  fst (handler (post endpoint "application/json" (js "{'query':'{test}'}")) JUndefined fresh)
  = fst (handler (get test_url) JUndefined fresh).
Proof. reflexivity. Qed.

Example GET_two_operations :
  fst (handler (get two_operations_url) JUndefined fresh)
  = Normal {| res_body :=
                js "{'errors':[{'message':'Must provide operation name if query contains multiple operations.'}]}";
              res_status := JNum 500;
              res_headers := [("Content-Type", JStr "application/json")] |}.
Proof. reflexivity. Qed.

Example PUT_request :
  fst (handler (with_method "PUT" test_url) JUndefined fresh)
  = Normal {| res_body :=
                js "{'errors':[{'message':'GraphQL only supports GET and POST requests.'}]}";
              res_status := JNum 405;
              res_headers := [("Content-Type", JStr "application/json");
                              ("Allow", JStr "OPTIONS, GET, POST")] |}.
Proof. reflexivity. Qed.

Example POST_plain_text :
  handler (post endpoint "text/plain" "{test}") JUndefined fresh
  = (Normal {| res_body := js "{'errors':[{'message':'Must provide query string.'}]}";
               res_status := JNum 400;
               res_headers := [("Content-Type", JStr "application/json")] |},
     fresh).
Proof. reflexivity. Qed.

Example object_extensions_in_envelope :
  fst (createRequestHandler tt object_extensions (get test_url) JUndefined fresh)
  = Normal {| res_body := js "{'data':{'test':'Hello World'},'extensions':{'eventually':42}}";
              res_status := JNum 200;
              res_headers := [("Content-Type", JStr "application/json")] |}.
Proof. reflexivity. Qed.

(** C2, the defect.  A POST request without a Content-Type header and
    without a query: the parameter resolver throws the error of calling
    [includes] on [null], and the response carries that error instead of
    [Must provide query string.]  With a query in the URL the request fails
    in the same way, and [execute] is never called. *)
Theorem POST_without_content_type :
  orchestrate tt defaultOptions (bare_post endpoint) JUndefined fresh
  = (Throw (JObj [("status", JNum 400);
                  ("error", TypeError "Cannot read properties of null (reading 'includes')")]),
     fresh)
  /\ fst (orchestrate tt defaultOptions (bare_post endpoint) JUndefined fresh)
     <> Throw query_failure
  /\ handler (bare_post test_url) JUndefined fresh
     = (Normal
          {| res_body :=
               body_of (JSON_stringify
                          (JObj [("errors",
                                  JArr [JObj [("message",
                                               JStr "Cannot read properties of null (reading 'includes')")]])])
                          0);
             res_status := JNum 400;
             res_headers := [("Content-Type", JStr "application/json")] |},
        fresh).
Proof. repeat split. discriminate. Qed.

(** C5, the defect.  An execute function that throws [undefined]: the
    [catch] block throws while it destructures the thrown value, and the
    handler rejects instead of returning a response. *)
Theorem thrown_undefined_escapes :
  fst (createRequestHandler tt throwing_undefined (get test_url) JUndefined fresh)
  = Throw (TypeError "Cannot destructure property 'status' of 'e' as it is undefined.").
Proof. reflexivity. Qed.

(** C7, the defect.  An extensions function that returns a string: the
    string is written into the envelope under [extensions]. *)
Theorem string_extensions_in_envelope :
  fst (createRequestHandler tt string_extensions (get test_url) JUndefined fresh)
  = Normal {| res_body := js "{'data':{'test':'Hello World'},'extensions':'hello'}";
              res_status := JNum 200;
              res_headers := [("Content-Type", JStr "application/json")] |}.
Proof. reflexivity. Qed.

(** C3, the counterexample.  It is not so that whenever the URL and the
    body both give an operation name, the merged parameters take the URL's:
    a URL that gives the empty name loses to the body. *)
Lemma url_empty_value_loses :
  ~ (forall (E : Engine) (request : Request) (st st1 st2 : Store)
            (fromBody : JSValue) (params : ParsedParams) (urlValue bodyValue : string),
        fromBody_of request st = (Normal fromBody, st1) ->
        get_prop fromBody "operationName" = Normal (JStr bodyValue) ->
        URLSearchParams_get (URL_searchParams (url request)) "operationName" = Some urlValue ->
        parseParams request st = (Normal params, st2) ->
        pp_operationName params = JStr urlValue).
Proof.
  intros H.
  specialize (H engine
                (post "http://localhost/graphql?operationName=" "application/json"
                      naming_the_mutation)
                fresh
                {| bodyUsed := true; calls := [ReadBody] |}
                {| bodyUsed := true; calls := [ReadBody] |}
                (JObj [("query", JStr two_operations); ("operationName", JStr "TestMutation")])
                {| pp_query := JStr two_operations;
                   pp_variables := JUndefined;
                   pp_operationName := JStr "TestMutation" |}
                EmptyString "TestMutation"
                eq_refl eq_refl eq_refl eq_refl).
  discriminate H.
Qed.

(** With the empty name in the URL, the operation that runs is the one
    that the body names. *)
Example url_empty_value_runs_body_operation :
  fst (handler (post "http://localhost/graphql?operationName=" "application/json"
                     naming_the_mutation) JUndefined fresh)
  = Normal {| res_body := js "{'data':{'writeTest':{'test':'Hello World'}}}";
              res_status := JNum 200;
              res_headers := [("Content-Type", JStr "application/json")] |}.
Proof. reflexivity. Qed.

(** A context is supplied, in the words of the specification, which
    writes the precedence with [??], when it is neither [undefined] nor
    [null]. *)
Definition supplied_context (v : JSValue) : Prop := v <> JUndefined /\ v <> JNull.

(** [context: ""], a context that is supplied and falsy. *)
Definition empty_string_context : Options := {|
  allowOrigins := JUndefined;
  context := JStr EmptyString;
  pretty := JBool false;
  validationRules := JArr [];
  rootValue := JUndefined;
  fieldResolver := JUndefined;
  typeResolver := JUndefined;
  extensions := None;
  customExecuteFn := None;
  customParseFn := None;
  customFormatErrorFn := None;
  customValidateFn := None
|}.

(** C8, the counterexample.  It is not so that the context of a call to
    [execute] is the per-call context if supplied, else the configured one
    if supplied, else the request: with the empty string as the configured
    context and no per-call context, [execute] is called with the
    request. *)
Lemma supplied_falsy_context_passed_over :
  ~ (forall (E : Engine) (schema : Schema) (options : Options) (request : Request)
            (localContext : JSValue) (st : Store) (args : ExecutionArgs Schema Document),
        In (CallExecute args)
           (calls (snd (createRequestHandler schema options request localContext st))) ->
        (supplied_context localContext -> ea_contextValue args = CtxValue localContext)
        /\ (~ supplied_context localContext -> supplied_context (context options) ->
            ea_contextValue args = CtxValue (context options))
        /\ (~ supplied_context localContext -> ~ supplied_context (context options) ->
            ea_contextValue args = CtxRequest request)).
Proof.
  intros H.
  specialize (H engine tt empty_string_context (get test_url) JUndefined fresh
                (execute_args (E := engine) tt empty_string_context (get test_url) JUndefined
                   test_document JUndefined JUndefined)).
  destruct H as (_ & H & _).
  - right; right; left; reflexivity.
  - assert (Hl : ~ supplied_context JUndefined) by (intros [Hu _]; now apply Hu).
    assert (Hc : supplied_context (context empty_string_context))
      by (split; discriminate).
    specialize (H Hl Hc). discriminate H.
Qed.

(** With that configured context, the context of the call is the request. *)
Example empty_string_context_gives_the_request :
  calls (snd (createRequestHandler tt empty_string_context (get test_url) JUndefined fresh))
  = [CallParse (JStr "{test}");
     CallGetOperationAST test_document JUndefined;
     CallExecute {| ea_schema := tt;
                    ea_document := test_document;
                    ea_variableValues := JUndefined;
                    ea_operationName := JUndefined;
                    ea_rootValue := JUndefined;
                    ea_contextValue := CtxRequest (get test_url);
                    ea_fieldResolver := JUndefined;
                    ea_typeResolver := JUndefined |}].
Proof. reflexivity. Qed.

(** ** Instances of the theorems *)

(** [status_split] at a result with data beside an error: status 200. *)
Lemma status_split_witness :
  orchestrate tt partial_data (get test_url) JUndefined fresh
  = (Normal (partial_result, JUndefined),
     snd (orchestrate tt partial_data (get test_url) JUndefined fresh))
  /\ ExecutionResult partial_result
  /\ formats partial_data partial_result
  /\ exists response,
      createRequestHandler tt partial_data (get test_url) JUndefined fresh
      = (Normal response, snd (orchestrate tt partial_data (get test_url) JUndefined fresh))
      /\ (res_status response = JNum 200 <-> has_data partial_result)
      /\ (~ has_data partial_result -> res_status response = JNum 500).
Proof.
  assert (Ho : orchestrate tt partial_data (get test_url) JUndefined fresh
               = (Normal (partial_result, JUndefined),
                  snd (orchestrate tt partial_data (get test_url) JUndefined fresh)))
    by reflexivity.
  assert (Hr : ExecutionResult partial_result).
  { eexists. split; [reflexivity|]. split.
    - right; right. eexists; reflexivity.
    - right. eexists; reflexivity. }
  assert (Hf : formats partial_data partial_result).
  { constructor; [eexists; reflexivity | constructor]. }
  exact (conj Ho (conj Hr (conj Hf
           (status_split (E := engine) tt partial_data _ _ _ _ _ _ Ho Hr Hf)))).
Defined.

(** [url_value_wins] at a POST request whose URL names the query and whose
    body names the mutation. *)
Lemma url_value_wins_witness :
  supplies (URL_searchParams "http://localhost/graphql?operationName=TestQuery")
           "operationName" "TestQuery"
  /\ (exists params st',
        parseParams (post "http://localhost/graphql?operationName=TestQuery"
                          "application/json" naming_the_mutation) fresh
        = (Normal params, st')
        /\ pp_operationName params = JStr "TestQuery"
        /\ get_prop (JObj [("query", JStr two_operations);
                           ("operationName", JStr "TestMutation")]) "query"
           = Normal (pp_query params))
  /\ (exists new,
        calls (snd (handler (post "http://localhost/graphql?operationName=TestQuery"
                                  "application/json" naming_the_mutation)
                            JUndefined fresh))
        = new
        /\ (exists args, In (CallExecute args) new)
        /\ forall args, In (CallExecute args) new -> ea_operationName args = JStr "TestQuery").
Proof.
  pose (request := post "http://localhost/graphql?operationName=TestQuery"
                        "application/json" naming_the_mutation).
  assert (Hs : supplies (URL_searchParams (url request)) "operationName" "TestQuery")
    by (split; [reflexivity | discriminate]).
  destruct (url_value_wins (E := engine) tt defaultOptions request) as [H1 H2].
  split; [exact Hs|]. split.
  - assert (Hp : parseParams request fresh
                 = (Normal {| pp_query := JStr two_operations;
                              pp_variables := JUndefined;
                              pp_operationName := JStr "TestQuery" |},
                    {| bodyUsed := true; calls := [ReadBody] |})) by reflexivity.
    destruct (H1 _ _ _ Hp) as (fromBody & Hb & Hm).
    eexists; eexists. split; [exact Hp|]. split.
    + apply Hm. exact Hs.
    + reflexivity.
  - destruct (H2 JUndefined fresh "TestQuery" Hs) as (new & Hn & Hargs).
    change (calls fresh ++ new)%list with new in Hn.
    exists new. split; [exact Hn|]. split; [|exact Hargs].
    rewrite <- Hn. eexists. right; right; left. reflexivity.
Defined.

(** [GET_mutation_guard] at the GET request that sends [TestMutation]. *)
Lemma GET_mutation_guard_witness :
  method (get mutation_url) = "GET"
  /\ getOperationAST mutation_document JUndefined
     = Some {| operation := OpMutation; op_name := Some "TestMutation" |}
  /\ handler (get mutation_url) JUndefined fresh
     = (Normal
          {| res_body :=
               js "{'errors':[{'message':'Can only perform a mutation operation from a POST request.'}]}";
             res_status := JNum 405;
             res_headers := [("Content-Type", JStr "application/json");
                             ("Allow", JStr "POST")] |},
        logged fresh [CallParse (JStr "mutation TestMutation { writeTest { test } }");
                      CallGetOperationAST mutation_document JUndefined]).
Proof.
  split; [reflexivity|]. split; [reflexivity|].
  refine (proj2 (proj1 (GET_mutation_guard (E := engine) tt defaultOptions (get mutation_url) JUndefined
                          fresh fresh
                          {| pp_query := JStr "mutation TestMutation { writeTest { test } }";
                             pp_variables := JUndefined;
                             pp_operationName := JUndefined |}
                          mutation_document eq_refl eq_refl eq_refl eq_refl)
                   {| operation := OpMutation; op_name := Some "TestMutation" |}
                   eq_refl _)
            _ eq_refl).
  discriminate.
Defined.

(** [OPTIONS_preflight] with the origin [*] and with no origin. *)
Lemma OPTIONS_preflight_witness :
  createRequestHandler tt any_origin (with_method "OPTIONS" test_url) JUndefined fresh
  = (Normal {| res_body := EmptyString;
               res_status := JNum 204;
               res_headers := [("Allow", JStr "OPTIONS, GET, POST");
                               ("Access-Control-Allow-Methods", JStr "OPTIONS, GET, POST");
                               ("Access-Control-Allow-Origin", JStr "*")] |},
     fresh)
  /\ handler (with_method "OPTIONS" test_url) JUndefined fresh
     = (Normal {| res_body :=
                    js "{'errors':[{'message':'GraphQL only supports GET and POST requests.'}]}";
                  res_status := JNum 405;
                  res_headers := [("Content-Type", JStr "application/json");
                                  ("Allow", JStr "OPTIONS, GET, POST")] |},
        fresh).
Proof.
  split.
  - exact (proj1 (OPTIONS_preflight (E := engine) tt any_origin (with_method "OPTIONS" test_url)
                    JUndefined fresh eq_refl) eq_refl).
  - exact (proj2 (proj2 (OPTIONS_preflight (E := engine) tt defaultOptions (with_method "OPTIONS" test_url)
                           JUndefined fresh eq_refl) eq_refl) _ eq_refl).
Defined.

(** [context_precedence] with a per-call context and with none at all. *)
Lemma context_precedence_witness :
  (exists args,
      In (CallExecute args) (calls (snd (handler (get test_url) foo_bar fresh)))
      /\ ea_contextValue args = CtxValue foo_bar)
  /\ (exists args,
        In (CallExecute args) (calls (snd (handler (get test_url) JUndefined fresh)))
        /\ ea_contextValue args = CtxRequest (get test_url)).
Proof.
  split.
  - destruct (context_precedence (E := engine) tt defaultOptions (get test_url) foo_bar fresh)
      as (new & Hn & H).
    exists (execute_args (E := engine) tt defaultOptions (get test_url) foo_bar test_document
              JUndefined JUndefined).
    assert (Hin : In (CallExecute (execute_args (E := engine) tt defaultOptions (get test_url) foo_bar
                                     test_document JUndefined JUndefined))
                     (calls (snd (handler (get test_url) foo_bar fresh))))
      by (right; right; left; reflexivity).
    split; [exact Hin|].
    apply H; [|reflexivity].
    change (calls fresh ++ new)%list with new in Hn. rewrite <- Hn. exact Hin.
  - destruct (context_precedence (E := engine) tt defaultOptions (get test_url) JUndefined fresh)
      as (new & Hn & H).
    exists (execute_args (E := engine) tt defaultOptions (get test_url) JUndefined test_document
              JUndefined JUndefined).
    assert (Hin : In (CallExecute (execute_args (E := engine) tt defaultOptions (get test_url) JUndefined
                                     test_document JUndefined JUndefined))
                     (calls (snd (handler (get test_url) JUndefined fresh))))
      by (right; right; left; reflexivity).
    split; [exact Hin|].
    apply H; [|reflexivity|reflexivity].
    change (calls fresh ++ new)%list with new in Hn. rewrite <- Hn. exact Hin.
Defined.

(** [content_type_by_containment] at the three content types, each with
    a charset after it. *)
Lemma content_type_by_containment_witness :
  fromBody_of (post endpoint "application/json; charset=utf-8" (js "{'query':'{test}'}")) fresh
  = (Normal (JObj [("query", JStr "{test}")]), {| bodyUsed := true; calls := [ReadBody] |})
  /\ fromBody_of (post endpoint "application/x-www-form-urlencoded; charset=utf-8"
                       "query=%7Btest%7D&variables=%7B%22who%22%3A%22Dolly%22%7D") fresh
     = (Normal (JObj [("query", JStr "{test}");
                      ("variables", JObj [("who", JStr "Dolly")]);
                      ("operationName", JNull)]),
        {| bodyUsed := true; calls := [ReadBody] |})
  /\ fromBody_of (post endpoint "application/graphql; charset=utf-8" "{test}") fresh
     = (Normal (JObj [("query", JStr "{test}")]), {| bodyUsed := true; calls := [ReadBody] |}).
Proof.
  assert (Hj : contains "application/json; charset=utf-8" "application/json")
    by (exists EmptyString, "; charset=utf-8"; reflexivity).
  assert (Hf : contains "application/x-www-form-urlencoded; charset=utf-8"
                 "application/x-www-form-urlencoded")
    by (exists EmptyString, "; charset=utf-8"; reflexivity).
  assert (Hfj : ~ contains "application/x-www-form-urlencoded; charset=utf-8" "application/json")
    by (apply includes_false_iff; reflexivity).
  assert (Hg : contains "application/graphql; charset=utf-8" "application/graphql")
    by (exists EmptyString, "; charset=utf-8"; reflexivity).
  assert (Hgj : ~ contains "application/graphql; charset=utf-8" "application/json")
    by (apply includes_false_iff; reflexivity).
  assert (Hgf : ~ contains "application/graphql; charset=utf-8"
                  "application/x-www-form-urlencoded")
    by (apply includes_false_iff; reflexivity).
  split; [|split].
  - exact (proj1 (content_type_by_containment (E := engine)
                    (post endpoint "application/json; charset=utf-8" (js "{'query':'{test}'}"))
                    "application/json; charset=utf-8" fresh eq_refl eq_refl eq_refl) Hj).
  - exact (proj1 (proj2 (content_type_by_containment (E := engine)
                           (post endpoint "application/x-www-form-urlencoded; charset=utf-8"
                              "query=%7Btest%7D&variables=%7B%22who%22%3A%22Dolly%22%7D")
                           "application/x-www-form-urlencoded; charset=utf-8" fresh
                           eq_refl eq_refl eq_refl)) Hfj Hf).
  - exact (proj2 (proj2 (content_type_by_containment (E := engine)
                           (post endpoint "application/graphql; charset=utf-8" "{test}")
                           "application/graphql; charset=utf-8" fresh
                           eq_refl eq_refl eq_refl)) Hgj Hgf Hg).
Defined.

(** [non_POST_body_unread] at a GET request that carries a JSON body. *)
Lemma non_POST_body_unread_witness :
  method get_with_body <> "POST"
  /\ snd (parseParams get_with_body fresh) = fresh
  /\ parseParams (with_payload get_with_body [] EmptyString) fresh
     = parseParams get_with_body fresh.
Proof.
  assert (Hm : method get_with_body <> "POST") by discriminate.
  destruct (non_POST_body_unread (E := engine) get_with_body fresh Hm) as [H1 H2].
  exact (conj Hm (conj H1 (H2 [] EmptyString))).
Defined.

(** [unrecognized_content_type] at a POST of plain text. *)
Lemma unrecognized_content_type_witness :
  ~ contains "text/plain" "application/json"
  /\ ~ contains "text/plain" "application/x-www-form-urlencoded"
  /\ ~ contains "text/plain" "application/graphql"
  /\ orchestrate tt defaultOptions (post endpoint "text/plain" "{test}") JUndefined fresh
     = (Throw query_failure, fresh).
Proof.
  assert (Hj : ~ contains "text/plain" "application/json")
    by (apply includes_false_iff; reflexivity).
  assert (Hf : ~ contains "text/plain" "application/x-www-form-urlencoded")
    by (apply includes_false_iff; reflexivity).
  assert (Hg : ~ contains "text/plain" "application/graphql")
    by (apply includes_false_iff; reflexivity).
  exact (conj Hj (conj Hf (conj Hg
           (unrecognized_content_type (E := engine) tt defaultOptions
              (post endpoint "text/plain" "{test}") JUndefined "text/plain" fresh
              eq_refl eq_refl Hj Hf Hg (or_introl eq_refl) (or_introl (or_introl eq_refl)))))).
Defined.

(** [envelope_without_extensions] at [undefined]. *)
Lemma envelope_without_extensions_witness :
  JSON_stringify (JObj [("errors", JUndefined);
                        ("data", JObj [("test", JStr "Hello World")]);
                        ("extensions", JUndefined)]) 0
  = Some (js "{'data':{'test':'Hello World'}}").
Proof.
  rewrite (envelope_without_extensions JUndefined (JObj [("test", JStr "Hello World")])
             JUndefined 0 (or_introl eq_refl)).
  reflexivity.
Defined.

(** [parseParams_Throw] at a JSON body that does not parse. *)
Lemma parseParams_Throw_witness :
  parseParams (post endpoint "application/json" "{") fresh
  = (Throw (JObj [("status", JNum 400);
                  ("error", JErr "SyntaxError" "Unexpected token in JSON")]),
     {| bodyUsed := true; calls := [ReadBody] |})
  /\ exists parseError,
      JObj [("status", JNum 400); ("error", JErr "SyntaxError" "Unexpected token in JSON")]
      = JObj [("status", JNum 400); ("error", parseError)].
Proof.
  assert (H : parseParams (post endpoint "application/json" "{") fresh
              = (Throw (JObj [("status", JNum 400);
                              ("error", JErr "SyntaxError" "Unexpected token in JSON")]),
                 {| bodyUsed := true; calls := [ReadBody] |})) by reflexivity.
  exact (conj H (parseParams_Throw (E := engine) _ _ _ _ H)).
Defined.

(** * The rest of the package *)

(** ** hashDocument.js *)

(** [Number.prototype.toString(16)] on a natural number. *)
Definition toString16 (n : nat) : string :=
  HexadecimalString.NilZero.string_of_uint (Nat.to_hex_uint n).

(** [s.slice(0, e)] for an end that is not negative. *)
Definition slice0 (s : string) (e : Z) : string := substring 0 (Z.to_nat e) s.

(** The body of the loop: the two characters that one byte adds. *)
Definition hex_byte (b : Byte.byte) : string :=
  let hex := toString16 (Byte.to_nat b) in
  slice0 "00" (Z.max 0 (2 - Z.of_nat (String.length hex))) ++ hex.

(** The loop over [out], from the [hash] built so far. *)
Fixpoint hex_loop (hash : string) (out : list Byte.byte) : string :=
  match out with
  | [] => hash
  | b :: rest => hex_loop (hash ++ hex_byte b) rest
  end.

Section HashDocument.

(** [crypto.subtle.digest({ name: "SHA-256" }, buffer)], which the host
    provides. *)
Variable digest : list Byte.byte -> list Byte.byte.

(** A string is the sequence of the bytes of its UTF-8 encoding, so
    [TextEncoder.encode] lists them. *)
Definition hashDocument (query : string) : string :=
  let buffer := list_byte_of_string query in
  let hashed := digest buffer in
  hex_loop EmptyString hashed.

End HashDocument.

(** Reading a hash back: two hexadecimal digits give one byte. *)
Fixpoint unhex (s : string) : option (list Byte.byte) :=
  match s with
  | EmptyString => Some []
  | String _ EmptyString => None
  | String h (String l rest) =>
      match hex_value h, hex_value l, unhex rest with
      | Some a, Some b, Some bytes =>
          match Byte.of_nat (16 * a + b) with
          | Some byte => Some (byte :: bytes)
          | None => None
          end
      | _, _, _ => None
      end
  end.

Definition lower_hex (c : ascii) : bool :=
  let n := nat_of_ascii c in
  ((48 <=? n)%nat && (n <=? 57)%nat) || ((97 <=? n)%nat && (n <=? 102)%nat).

Fixpoint all_chars (p : ascii -> bool) (s : string) : bool :=
  match s with
  | EmptyString => true
  | String c rest => p c && all_chars p rest
  end.

Lemma all_chars_app p a b :
  all_chars p (a ++ b) = all_chars p a && all_chars p b.
Proof.
  induction a as [|c a IH]; simpl; [reflexivity|].
  now rewrite IH, andb_assoc.
Qed.

Lemma string_length_app (a b : string) :
  String.length (a ++ b) = (String.length a + String.length b)%nat.
Proof. induction a as [|c a IH]; simpl; [reflexivity | now rewrite IH]. Qed.

Lemma string_app_assoc (a b c : string) : (a ++ b) ++ c = a ++ b ++ c.
Proof. induction a as [|x a IH]; simpl; [reflexivity | now rewrite IH]. Qed.

Lemma string_app_nil_r (a : string) : a ++ EmptyString = a.
Proof. induction a as [|x a IH]; simpl; [reflexivity | now rewrite IH]. Qed.

(** One byte gives exactly two lowercase hexadecimal digits, from which it
    is read back. *)
Lemma hex_byte_spec (b : Byte.byte) :
  String.length (hex_byte b) = 2%nat
  /\ all_chars lower_hex (hex_byte b) = true
  /\ forall rest, unhex (hex_byte b ++ rest) = option_map (cons b) (unhex rest).
Proof.
  destruct b; (split; [reflexivity | split; [reflexivity |]]);
    intros rest;
    match goal with
    | |- context [hex_byte ?x] =>
        let v := eval vm_compute in (hex_byte x) in change (hex_byte x) with v
    end;
    cbn; destruct (unhex rest); reflexivity.
Qed.

Lemma hex_loop_app hash out :
  hex_loop hash out = hash ++ hex_loop EmptyString out.
Proof.
  revert hash; induction out as [|b out IH]; intros hash; simpl.
  - now rewrite string_app_nil_r.
  - rewrite IH, (IH (hex_byte b)). now rewrite string_app_assoc.
Qed.

Lemma hex_loop_spec out :
  String.length (hex_loop EmptyString out) = (2 * length out)%nat
  /\ all_chars lower_hex (hex_loop EmptyString out) = true
  /\ unhex (hex_loop EmptyString out) = Some out.
Proof.
  induction out as [|b out (IHl & IHc & IHu)]; simpl; [auto|].
  destruct (hex_byte_spec b) as (Hl & Hc & Hu).
  rewrite hex_loop_app. simpl.
  rewrite string_length_app, all_chars_app, Hu, Hl, Hc, IHl, IHc, IHu.
  repeat split; simpl; lia.
Qed.

(** X7.  The hash of a query is written with two lowercase hexadecimal
    digits per byte of its digest and with nothing else. *)
Theorem hashDocument_hex digest query :
  String.length (hashDocument digest query)
  = (2 * length (digest (list_byte_of_string query)))%nat
  /\ all_chars lower_hex (hashDocument digest query) = true.
Proof.
  unfold hashDocument.
  destruct (hex_loop_spec (digest (list_byte_of_string query))) as (Hl & Hc & _).
  auto.
Qed.

(** X8.  The digest is read back from the hash, so two queries have the
    same hash exactly when they have the same digest. *)
Theorem hashDocument_round_trip digest query :
  unhex (hashDocument digest query) = Some (digest (list_byte_of_string query))
  /\ forall query',
      hashDocument digest query = hashDocument digest query'
      <-> digest (list_byte_of_string query) = digest (list_byte_of_string query').
Proof.
  assert (Hu : forall q,
             unhex (hashDocument digest q) = Some (digest (list_byte_of_string q))).
  { intros q. unfold hashDocument. apply hex_loop_spec. }
  split; [apply Hu|].
  intros query'. split; intros H.
  - pose proof (Hu query) as H1. rewrite H, Hu in H1. congruence.
  - unfold hashDocument. now rewrite H.
Qed.

(** ** testUtils.js *)

(** The bytes that the form-urlencoded serializer leaves as they are:
    letters, digits and [*], [-], [.], [_]. *)
Definition form_unreserved (c : ascii) : bool :=
  let n := nat_of_ascii c in
  ((48 <=? n)%nat && (n <=? 57)%nat)
  || ((65 <=? n)%nat && (n <=? 90)%nat)
  || ((97 <=? n)%nat && (n <=? 122)%nat)
  || (n =? 42)%nat || (n =? 45)%nat || (n =? 46)%nat || (n =? 95)%nat.

Definition upper_hex_digit (n : nat) : ascii :=
  if (n <? 10)%nat then ascii_of_nat (48 + n) else ascii_of_nat (55 + n).

(** The serializer on one byte: a space becomes [+], and a byte that is
    not left as it is becomes [%] and two uppercase hexadecimal digits. *)
Definition form_encode_char (c : ascii) : string :=
  if (nat_of_ascii c =? 32)%nat then "+"
  else if form_unreserved c then String c EmptyString
  else String "%" (String (upper_hex_digit (nat_of_ascii c / 16))
                     (String (upper_hex_digit (nat_of_ascii c mod 16)) EmptyString)).

Fixpoint form_encode (s : string) : string :=
  match s with
  | EmptyString => EmptyString
  | String c rest => form_encode_char c ++ form_encode rest
  end.

(** [URLSearchParams.prototype.toString]. *)
Definition URLSearchParams_toString (params : list (string * string)) : string :=
  join "&" (map (fun p => form_encode (fst p) ++ "=" ++ form_encode (snd p)) params).

(** [new URLSearchParams(urlParams).toString()] for a record of strings,
    given as the list of its entries. *)
Definition stringifyURLParams (urlParams : list (string * string)) : string :=
  URLSearchParams_toString urlParams.

(** [urlString(queryParams)]: [None] is the missing argument, and a record
    is truthy even when it is empty. *)
Definition urlString (queryParams : option (list (string * string))) : string :=
  "http://localhost/graphql"
  ++ match queryParams with
     | Some params => "?" ++ stringifyURLParams params
     | None => EmptyString
     end.

(** [c] does not occur in [s]. *)
Definition free_of (c : ascii) (s : string) : bool :=
  all_chars (fun x => negb (Ascii.eqb x c)) s.

Lemma form_encode_char_spec (c : ascii) :
  free_of "&" (form_encode_char c) = true
  /\ free_of "=" (form_encode_char c) = true
  /\ free_of "#" (form_encode_char c) = true
  /\ free_of "?" (form_encode_char c) = true
  /\ forall rest, form_decode (form_encode_char c ++ rest) = String c (form_decode rest).
Proof.
  destruct c as [[] [] [] [] [] [] [] []];
    (repeat (split; [reflexivity|])); intros rest; reflexivity.
Qed.

Lemma form_encode_free (s : string) :
  free_of "&" (form_encode s) = true
  /\ free_of "=" (form_encode s) = true
  /\ free_of "#" (form_encode s) = true
  /\ free_of "?" (form_encode s) = true.
Proof.
  unfold free_of. induction s as [|c s (H1 & H2 & H3 & H4)]; simpl; [auto|].
  destruct (form_encode_char_spec c) as (C1 & C2 & C3 & C4 & _).
  unfold free_of in *. rewrite !all_chars_app, C1, C2, C3, C4, H1, H2, H3, H4. auto.
Qed.

Lemma form_decode_app_encoded c rest :
  form_decode (form_encode_char c ++ rest) = String c (form_decode rest).
Proof. apply form_encode_char_spec. Qed.

(** Decoding undoes encoding. *)
Lemma form_decode_encode (s : string) : form_decode (form_encode s) = s.
Proof.
  induction s as [|c s IH]; [reflexivity|].
  cbn [form_encode]. now rewrite form_decode_app_encoded, IH.
Qed.

Lemma free_of_cons sep c s :
  free_of sep (String c s) = true -> Ascii.eqb c sep = false /\ free_of sep s = true.
Proof.
  unfold free_of. simpl. intros H. apply andb_true_iff in H as [H1 H2].
  split; [now apply negb_true_iff | assumption].
Qed.

Lemma cut_at_free sep s :
  free_of sep s = true -> cut_at sep s = (s, None).
Proof.
  induction s as [|c s IH]; intros H; simpl; [reflexivity|].
  apply free_of_cons in H as [Hc Hs]. rewrite Hc, (IH Hs). reflexivity.
Qed.

Lemma cut_at_first sep a b :
  free_of sep a = true -> cut_at sep (a ++ String sep b) = (a, Some b).
Proof.
  induction a as [|c a IH]; intros H; simpl.
  - now rewrite Ascii.eqb_refl.
  - apply free_of_cons in H as [Hc Hs]. rewrite Hc, (IH Hs). reflexivity.
Qed.

Lemma split_on_free sep s :
  free_of sep s = true -> split_on sep s = [s].
Proof.
  induction s as [|c s IH]; intros H; simpl; [reflexivity|].
  apply free_of_cons in H as [Hc Hs]. rewrite Hc, (IH Hs). reflexivity.
Qed.

Lemma split_on_first sep a b :
  free_of sep a = true -> split_on sep (a ++ String sep b) = a :: split_on sep b.
Proof.
  induction a as [|c a IH]; intros H; simpl.
  - now rewrite Ascii.eqb_refl.
  - apply free_of_cons in H as [Hc Hs]. rewrite Hc, (IH Hs). reflexivity.
Qed.

Lemma free_of_app sep a b :
  free_of sep (a ++ b) = free_of sep a && free_of sep b.
Proof. apply all_chars_app. Qed.

(** The pieces of a serialized list: [name=value], encoded. *)
Definition piece (p : string * string) : string :=
  form_encode (fst p) ++ "=" ++ form_encode (snd p).

Lemma piece_free p : free_of "&" (piece p) = true.
Proof.
  unfold piece. rewrite !free_of_app.
  destruct (form_encode_free (fst p)) as (-> & _).
  destruct (form_encode_free (snd p)) as (-> & _). reflexivity.
Qed.

Lemma piece_parsed p :
  (if is_empty (piece p) then []
   else let (name, value) := cut_at "=" (piece p) in
        [(form_decode name,
          match value with Some v => form_decode v | None => EmptyString end)])
  = [p].
Proof.
  destruct p as [n v]. unfold piece. simpl fst; simpl snd.
  change (form_encode n ++ "=" ++ form_encode v)
    with (form_encode n ++ String "=" (form_encode v)).
  assert (He : is_empty (form_encode n ++ String "=" (form_encode v)) = false)
    by (destruct (form_encode n); reflexivity).
  rewrite He.
  rewrite cut_at_first by apply form_encode_free.
  now rewrite !form_decode_encode.
Qed.

(** Parsing undoes serializing. *)
Lemma parse_urlencoded_toString (params : list (string * string)) :
  parse_urlencoded (URLSearchParams_toString params) = params.
Proof.
  unfold URLSearchParams_toString, parse_urlencoded.
  fold piece. change (fun p => form_encode (fst p) ++ "=" ++ form_encode (snd p)) with piece.
  induction params as [|p params IH]; [reflexivity|].
  destruct params as [|q params].
  - simpl map. simpl join. rewrite split_on_free by apply piece_free.
    simpl flat_map. rewrite piece_parsed. reflexivity.
  - change (join "&" (map piece (p :: q :: params)))
      with (piece p ++ String "&" (join "&" (map piece (q :: params)))).
    rewrite split_on_first by apply piece_free.
    cbn [flat_map]. rewrite piece_parsed, IH. reflexivity.
Qed.

Lemma piece_free_fragment p : free_of "#" (piece p) = true.
Proof.
  unfold piece. rewrite !free_of_app.
  destruct (form_encode_free (fst p)) as (_ & _ & -> & _).
  destruct (form_encode_free (snd p)) as (_ & _ & -> & _). reflexivity.
Qed.

Lemma toString_free (params : list (string * string)) :
  free_of "#" (URLSearchParams_toString params) = true.
Proof.
  unfold URLSearchParams_toString.
  change (fun p => form_encode (fst p) ++ "=" ++ form_encode (snd p)) with piece.
  induction params as [|p params IH]; [reflexivity|].
  destruct params as [|q params].
  - simpl. apply piece_free_fragment.
  - change (join "&" (map piece (p :: q :: params)))
      with (piece p ++ String "&" (join "&" (map piece (q :: params)))).
    rewrite free_of_app, piece_free_fragment.
    change (free_of "#" (String "&" (join "&" (map piece (q :: params)))))
      with (free_of "#" (join "&" (map piece (q :: params)))).
    exact IH.
Qed.

Lemma searchParams_of_urlString (queryParams : option (list (string * string))) :
  URL_searchParams (urlString queryParams)
  = match queryParams with Some params => params | None => [] end.
Proof.
  destruct queryParams as [params|]; [|reflexivity].
  unfold URL_searchParams, urlString, stringifyURLParams.
  pose proof (toString_free params) as Hfree.
  pose proof (parse_urlencoded_toString params) as Hparse.
  set (q := URLSearchParams_toString params) in *.
  change ("http://localhost/graphql" ++ "?" ++ q)
    with ("http://localhost/graphql" ++ String "?" q).
  assert (Hcut : cut_at "#" ("http://localhost/graphql" ++ String "?" q)
                 = ("http://localhost/graphql" ++ String "?" q, None)).
  { apply cut_at_free. rewrite free_of_app.
    change (free_of "#" (String "?" q)) with (free_of "#" q).
    now rewrite Hfree. }
  rewrite Hcut. cbn [fst].
  rewrite (cut_at_first "?" "http://localhost/graphql" q) by reflexivity.
  exact Hparse.
Qed.

(** X9.  The parameters that [urlString] writes into a URL are the ones
    that the parameter resolver reads from it: parsing the query of
    [urlString(params)] gives [params] back, names and values byte for
    byte, and no parameter for a missing argument. *)
Theorem urlString_round_trip (queryParams : option (list (string * string))) :
  URL_searchParams (urlString queryParams)
  = match queryParams with Some params => params | None => [] end.
Proof. apply searchParams_of_urlString. Qed.

Example urlString_query :
  urlString (Some [("query", "{test}")]) = "http://localhost/graphql?query=%7Btest%7D".
Proof. reflexivity. Qed.

Example urlString_mutation :
  urlString (Some [("query", "mutation TestMutation { writeTest { test } }")])
  = TestEngine.mutation_url.
Proof. reflexivity. Qed.

Example urlString_nothing : urlString None = "http://localhost/graphql".
Proof. reflexivity. Qed.

(** ** The order of the calls *)

(** The steps of the pipeline, numbered in the order of the source. *)
Definition phase {E : Engine} (c : Call) : nat :=
  match c with
  | ReadBody => 0
  | CallParse _ => 1
  | CallGetOperationAST _ _ => 2
  | CallValidate _ _ _ => 3
  | CallExecute _ => 4
  | CallExtensions _ => 5
  end.

(** Strictly increasing numbers, all from [lo] and below [hi]. *)
Fixpoint ascending (lo hi : nat) (l : list nat) : Prop :=
  match l with
  | [] => True
  | x :: rest => (lo <= x < hi)%nat /\ ascending (S x) hi rest
  end.

Lemma ascending_weaken lo lo' hi hi' l :
  (lo' <= lo)%nat -> (hi <= hi')%nat -> ascending lo hi l -> ascending lo' hi' l.
Proof.
  revert lo lo'; induction l as [|x l IH]; intros lo lo' Hlo Hhi; simpl; [auto|].
  intros [Hx Hl]. split; [lia|]. eapply IH; [| |exact Hl]; lia.
Qed.

Lemma ascending_app lo mid hi a b :
  (lo <= mid <= hi)%nat ->
  ascending lo mid a -> ascending mid hi b -> ascending lo hi (a ++ b)%list.
Proof.
  revert lo; induction a as [|x a IH]; intros lo Hm Ha Hb; simpl in *.
  - eapply ascending_weaken; [| |exact Hb]; lia.
  - destruct Ha as [Hx Ha]. split; [lia|]. apply IH; [lia | assumption | assumption].
Qed.

Lemma ascending_from lo hi l : ascending lo hi l -> Forall (fun y => (lo <= y)%nat) l.
Proof.
  revert lo; induction l as [|x l IH]; intros lo; simpl; [constructor|].
  intros [Hx Hl]. constructor; [lia|].
  eapply Forall_impl; [|apply (IH _ Hl)]. simpl. intros; lia.
Qed.

Lemma ascending_sorted lo hi l : ascending lo hi l -> StronglySorted lt l.
Proof.
  revert lo; induction l as [|x l IH]; intros lo; simpl; [constructor|].
  intros [Hx Hl]. constructor; [eapply IH; eassumption|].
  eapply Forall_impl; [|apply (ascending_from _ _ _ Hl)]. simpl. intros; lia.
Qed.

Section Order.

Context {E : Engine}.

(** [in_order lo hi c]: the calls that [c] appends are of strictly
    increasing steps, all from [lo] and below [hi]. *)
Definition in_order {A : Type} (lo hi : nat) (c : M Store A) : Prop :=
  forall st, exists new,
    calls (snd (c st)) = (calls st ++ new)%list
    /\ ascending lo hi (map phase new).

Lemma in_order_pure {A : Type} lo hi (c : M Store A) : pure c -> in_order lo hi c.
Proof. intros Hp st. exists []. rewrite Hp, app_nil_r. simpl. auto. Qed.

Lemma in_order_log lo hi c :
  (lo <= phase c < hi)%nat -> in_order lo hi (log c).
Proof. intros H st. exists [c]. simpl. auto. Qed.

Lemma in_order_bind {A B : Type} lo mid hi (c : M Store A) (k : A -> M Store B) :
  (lo <= mid <= hi)%nat ->
  in_order lo mid c -> (forall a, in_order mid hi (k a)) -> in_order lo hi (bind c k).
Proof.
  intros Hm Hc Hk st. destruct (Hc st) as (new & Hn & Ha).
  unfold bind. destruct (c st) as [[a|e] st1]; simpl in *.
  - destruct (Hk a st1) as (new' & Hn' & Ha').
    exists (new ++ new')%list. rewrite Hn', Hn, app_assoc, map_app.
    split; [reflexivity|]. eapply ascending_app; eassumption.
  - exists new. split; [assumption|].
    eapply ascending_weaken; [| |exact Ha]; lia.
Qed.

Lemma in_order_try_catch {A : Type} lo mid hi (c : M Store A) (h : JSValue -> M Store A) :
  (lo <= mid <= hi)%nat ->
  in_order lo mid c -> (forall e, in_order mid hi (h e)) -> in_order lo hi (try_catch c h).
Proof.
  intros Hm Hc Hh st. destruct (Hc st) as (new & Hn & Ha).
  unfold try_catch. destruct (c st) as [[a|e] st1]; simpl in *.
  - exists new. split; [assumption|].
    eapply ascending_weaken; [| |exact Ha]; lia.
  - destruct (Hh e st1) as (new' & Hn' & Ha').
    exists (new ++ new')%list. rewrite Hn', Hn, app_assoc, map_app.
    split; [reflexivity|]. eapply ascending_app; eassumption.
Qed.

Lemma in_order_Request_text request : in_order 0 1 (Request_text request).
Proof.
  intros st. unfold Request_text. destruct (bodyUsed st); simpl.
  - exists []. rewrite app_nil_r. simpl. auto.
  - exists [ReadBody]. simpl. repeat split; lia.
Qed.

Lemma pure_post_with request search : pure (post_with request search).
Proof.
  unfold post_with, content_type_includes.
  destruct (String.eqb _ _); [destruct (Headers_get _ _)|]; auto with pure.
Qed.

(** The resolver reads the body at most once. *)
Lemma in_order_parseParams request : in_order 0 1 (parseParams request).
Proof.
  unfold parseParams.
  apply in_order_try_catch with (mid := 1%nat); [lia | | intros; apply in_order_pure, pure_throw].
  apply in_order_bind with (mid := 1%nat);
    [lia | | intros; apply in_order_pure, pure_merge].
  unfold fromBody_of.
  apply in_order_bind with (mid := 0%nat);
    [lia | apply in_order_pure, pure_post_with |]. intros [].
  { unfold json_body, Request_json.
    apply in_order_bind with (mid := 1%nat);
      [lia | apply in_order_Request_text | intros; apply in_order_pure, pure_lift]. }
  apply in_order_bind with (mid := 0%nat);
    [lia | apply in_order_pure, pure_post_with |]. intros [].
  { unfold form_body.
    apply in_order_bind with (mid := 1%nat); [lia | apply in_order_Request_text |].
    intros text. apply in_order_pure.
    apply pure_bind; [apply pure_if_truthy; auto with pure | auto with pure]. }
  apply in_order_bind with (mid := 0%nat);
    [lia | apply in_order_pure, pure_post_with |]. intros [].
  { unfold graphql_body.
    apply in_order_bind with (mid := 1%nat);
      [lia | apply in_order_Request_text | intros; apply in_order_pure, pure_ret]. }
  apply in_order_pure, pure_ret.
Qed.

Variable schema : Schema.
Variable options : Options.

Lemma in_order_orchestrate request localContext :
  in_order 0 6 (orchestrate schema options request localContext).
Proof.
  unfold orchestrate.
  destruct (negb _); [apply in_order_pure, pure_throw|].
  apply in_order_bind with (mid := 1%nat); [lia | apply in_order_parseParams |].
  intros params. cbv zeta.
  destruct (negb (truthy (pp_query params))); [apply in_order_pure, pure_throw|].
  apply in_order_bind with (mid := 2%nat); [lia | |].
  { unfold parse_document.
    apply in_order_try_catch with (mid := 2%nat);
      [lia | | intros; apply in_order_pure, pure_throw].
    apply in_order_bind with (mid := 2%nat);
      [lia | apply in_order_log; simpl; lia | intros; apply in_order_pure, pure_lift]. }
  intros document.
  apply in_order_bind with (mid := 3%nat); [lia | |].
  { unfold guard_GET. destruct (String.eqb _ _); [|apply in_order_pure, pure_ret].
    apply in_order_bind with (mid := 3%nat); [lia | apply in_order_log; simpl; lia |].
    intros _. apply in_order_pure. destruct (is_not_query _); auto with pure. }
  intros _. unfold run_document.
  apply in_order_bind with (mid := 4%nat); [lia | |].
  { destruct (validate options); [|apply in_order_pure, pure_ret].
    apply in_order_bind with (mid := 4%nat); [lia | apply in_order_log; simpl; lia |].
    intros _. apply in_order_pure.
    apply pure_bind; [apply pure_lift|]. intros errs.
    destruct (0 <? _)%nat; auto with pure. }
  intros _. cbv zeta.
  apply in_order_bind with (mid := 5%nat); [lia | apply in_order_log; simpl; lia |].
  intros _.
  apply in_order_bind with (mid := 5%nat); [lia | apply in_order_pure, pure_lift |].
  intros result.
  apply in_order_bind with (mid := 6%nat);
    [lia | | intros; apply in_order_pure, pure_ret].
  destruct (extensions options); [|apply in_order_pure, pure_ret].
  apply in_order_bind with (mid := 6%nat);
    [lia | apply in_order_log; simpl; lia | intros; apply in_order_pure, pure_lift].
Qed.

(** X10.  In every run of the handler the calls come in the order of the
    pipeline, each step at most once: the read of the body, then [parse],
    then the operation lookup, then [validate], then [execute], then
    [extensions]. *)
Theorem calls_in_order request localContext (st : Store) :
  exists new,
    calls (snd (createRequestHandler schema options request localContext st))
    = (calls st ++ new)%list
    /\ StronglySorted lt (map phase new).
Proof.
  assert (H : in_order 0 6 (createRequestHandler schema options request localContext)).
  { unfold createRequestHandler.
    destruct (_ && _); [apply in_order_pure, pure_ret|].
    apply in_order_try_catch with (mid := 6%nat);
      [lia | | intros; apply in_order_pure, pure_fail].
    apply in_order_bind with (mid := 6%nat); [lia | apply in_order_orchestrate |].
    intros r. apply in_order_pure, pure_respond. }
  destruct (H st) as (new & Hn & Ha).
  exists new. split; [exact Hn|]. eapply ascending_sorted; exact Ha.
Qed.

End Order.

(** ** What the calls are made with *)

Section CallFacts.

Context {E : Engine}.
Variable schema : Schema.
Variable options : Options.

(** What holds of each call of a run: [validate] is the configured
    function, called on the schema and the configured rules; [execute] is
    called on a document that [validate], when there is one, returned no
    error for; [extensions] is called with the configured context and with
    the document, variables, operation name and result of a call to
    [execute]. *)
Definition call_fact (request : Request) (localContext : JSValue) (c : Call) : Prop :=
  match c with
  | CallValidate s d rules =>
      (exists validate_fn, customValidateFn options = Some validate_fn)
      /\ s = schema /\ rules = validationRules options
  | CallExecute args =>
      forall validate_fn,
        customValidateFn options = Some validate_fn ->
        validate_fn schema (ea_document args) (validationRules options) = Normal []
  | CallExtensions xargs =>
      xa_context xargs = context options
      /\ exists variables operationName,
          xa_variables xargs = variables
          /\ xa_operationName xargs = operationName
          /\ execute options
               (execute_args schema options request localContext (xa_document xargs)
                  variables operationName)
             = Normal (xa_result xargs)
  | _ => True
  end.

Lemma logs_run_document request localContext document variables operationName :
  logs (run_document schema options request localContext document variables operationName)
       (call_fact request localContext) (fun _ => True).
Proof.
  unfold run_document.
  eapply logs_bind
    with (Q := fun _ => forall validate_fn,
                   customValidateFn options = Some validate_fn ->
                   validate_fn schema document (validationRules options) = Normal []).
  { unfold validate. destruct (customValidateFn options) as [validate_fn|] eqn:Hv.
    - eapply logs_bind with (Q := fun _ => True);
        [apply logs_log; [simpl; eauto | exact I]|].
      intros _ _.
      eapply logs_bind
        with (Q := fun errs =>
                     validate_fn schema document (validationRules options) = Normal errs);
        [apply logs_lift; auto|].
      intros errs Herrs. destruct errs as [|e errs]; simpl.
      + apply logs_ret. intros f Hf. injection Hf as <-. exact Herrs.
      + apply logs_throw.
    - apply logs_ret. discriminate. }
  intros _ Hvalid. cbv zeta.
  eapply logs_bind with (Q := fun _ => True);
    [apply logs_log; [exact Hvalid | exact I]|].
  intros _ _.
  eapply logs_bind
    with (Q := fun result =>
                 execute options
                   (execute_args schema options request localContext document
                      variables operationName) = Normal result);
    [apply logs_lift; auto|].
  intros result Hresult.
  eapply logs_bind with (Q := fun _ => True); [|intros; now apply logs_ret].
  destruct (extensions options); [|now apply logs_ret].
  eapply logs_bind with (Q := fun _ => True); [|intros; now apply logs_lift].
  apply logs_log; [|exact I]. simpl. split; [reflexivity|]. eauto.
Qed.

Lemma logs_call_facts request localContext :
  logs (createRequestHandler schema options request localContext)
       (call_fact request localContext) (fun _ => True).
Proof.
  unfold createRequestHandler.
  destruct (_ && _); [now apply logs_ret|].
  apply logs_try_catch; [|intros e; apply logs_pure; [apply pure_fail | auto]].
  eapply logs_bind with (Q := fun _ => True);
    [|intros r _; apply logs_pure; [apply pure_respond | auto]].
  unfold orchestrate.
  destruct (negb _); [apply logs_throw|].
  eapply logs_bind with (Q := fun _ => True).
  { eapply logs_weaken; [apply logs_parseParams | | auto].
    intros c [-> _]. exact I. }
  intros params _. cbv zeta.
  destruct (negb (truthy (pp_query params))); [apply logs_throw|].
  eapply logs_bind with (Q := fun _ => True).
  { unfold parse_document. apply logs_try_catch; [|intros; apply logs_throw].
    eapply logs_bind with (Q := fun _ => True);
      [now apply logs_log | intros; now apply logs_lift]. }
  intros document _.
  eapply logs_bind with (Q := fun _ => True).
  { unfold guard_GET. destruct (String.eqb _ _); [|now apply logs_ret].
    eapply logs_bind with (Q := fun _ => True); [now apply logs_log|].
    intros _ _. destruct (is_not_query _); [apply logs_throw | now apply logs_ret]. }
  intros _ _. apply logs_run_document.
Qed.

(** X11.  When a validate function is configured, every document that the
    handler executes is one for which that function, called on the schema
    and the configured rules, returned no error. *)
Theorem validated_before_execute request localContext (st : Store) validate_fn :
  customValidateFn options = Some validate_fn ->
  exists new,
    calls (snd (createRequestHandler schema options request localContext st))
    = (calls st ++ new)%list
    /\ forall args, In (CallExecute args) new ->
         validate_fn schema (ea_document args) (validationRules options) = Normal [].
Proof.
  intros Hv.
  destruct (logs_call_facts request localContext st) as (new & Hn & Hf & _).
  exists new. split; [exact Hn|].
  intros args Hin. rewrite Forall_forall in Hf. exact (Hf _ Hin _ Hv).
Qed.

(** X12.  Without a validate function in the options the handler never
    validates: no run calls [validate]. *)
Theorem lean_never_validates request localContext (st : Store) :
  customValidateFn options = None ->
  exists new,
    calls (snd (createRequestHandler schema options request localContext st))
    = (calls st ++ new)%list
    /\ forall s d rules, ~ In (CallValidate s d rules) new.
Proof.
  intros Hv.
  destruct (logs_call_facts request localContext st) as (new & Hn & Hf & _).
  exists new. split; [exact Hn|].
  intros s d rules Hin. rewrite Forall_forall in Hf.
  destruct (Hf _ Hin) as ([validate_fn Hsome] & _). congruence.
Qed.

(** X13.  The extensions function is called with the context of the
    options, not with the per-call context or the request, and with the
    document, variables, operation name and result of the call to
    [execute]. *)
Theorem extensions_arguments request localContext (st : Store) :
  exists new,
    calls (snd (createRequestHandler schema options request localContext st))
    = (calls st ++ new)%list
    /\ forall xargs, In (CallExtensions xargs) new ->
         xa_context xargs = context options
         /\ execute options
              (execute_args schema options request localContext (xa_document xargs)
                 (xa_variables xargs) (xa_operationName xargs))
            = Normal (xa_result xargs).
Proof.
  destruct (logs_call_facts request localContext st) as (new & Hn & Hf & _).
  exists new. split; [exact Hn|].
  intros xargs Hin. rewrite Forall_forall in Hf.
  destruct (Hf _ Hin) as (Hc & variables & operationName & <- & <- & Hr).
  split; assumption.
Qed.

End CallFacts.

(** ** index.js *)

(** What [index.js] imports beside the lean handler: the validator of
    graphql-js and its specified rules. *)
Class Validation {E : Engine} : Type := {
  gqlValidate : Schema -> Document -> JSValue -> Completion (list JSValue);
  specifiedRules : list JSValue
}.

(** The elements that an array spread [[...v]] takes from [v]: those of an
    array, the characters of a string; another value is not iterable. *)
Definition spread_array (v : JSValue) : Completion (list JSValue) :=
  match v with
  | JArr items => Normal items
  | JStr s => Normal (chars s)
  | _ => Throw (TypeError "validationRules is not iterable")
  end.

(** The lean handler under the name that [index.js] imports it by. *)
Definition createLeanRequestHandler {E : Engine} (schema : Schema) (options : Options)
  : Request -> JSValue -> M Store Response :=
  createRequestHandler schema options.

Module Index.

(** The options that [index.js] hands to the lean handler: the rules after
    the specified ones, and the validator of graphql-js unless the options
    bring their own. *)
Definition lean_options {E : Engine} {V : Validation} (options : Options)
  (rules : list JSValue) : Options := {|
  allowOrigins := allowOrigins options;
  context := context options;
  pretty := pretty options;
  validationRules := JArr (specifiedRules ++ rules)%list;
  rootValue := rootValue options;
  fieldResolver := fieldResolver options;
  typeResolver := typeResolver options;
  extensions := extensions options;
  customExecuteFn := customExecuteFn options;
  customParseFn := customParseFn options;
  customFormatErrorFn := customFormatErrorFn options;
  customValidateFn :=
    Some (match customValidateFn options with
          | Some validate_fn => validate_fn
          | None => gqlValidate
          end)
|}.

(** [createRequestHandler] of [index.js].  The spread of the rules is
    evaluated when the handler is made, and throws there. *)
Definition createRequestHandler {E : Engine} {V : Validation} (schema : Schema)
  (options : Options) : Completion (Request -> JSValue -> M Store Response) :=
  match spread_array (validationRules options) with
  | Normal rules => Normal (createLeanRequestHandler schema (lean_options options rules))
  | Throw e => Throw e
  end.

End Index.

(** ** A test validator *)

Module TestValidation.

Import TestEngine.

(** A validator that refuses the document of [TestMutation] and accepts
    every other one. *)
Definition refuse_mutation (_ : unit) (document : list OperationDefinitionNode)
  (_ : JSValue) : Completion (list JSValue) :=
  match document with
  | [{| operation := OpMutation |}] =>
      Normal [GraphQLError "Cannot query field writeTest."]
  | _ => Normal []
  end.

#[export] Instance validation : Validation (E := engine) := {|
  gqlValidate := refuse_mutation;
  specifiedRules := [JFun 1; JFun 2]
|}.

(** Options that bring that validator themselves. *)
Definition validating : Options := {|
  allowOrigins := JUndefined;
  context := JUndefined;
  pretty := JBool false;
  validationRules := JArr [];
  rootValue := JUndefined;
  fieldResolver := JUndefined;
  typeResolver := JUndefined;
  extensions := None;
  customExecuteFn := None;
  customParseFn := None;
  customFormatErrorFn := None;
  customValidateFn := Some refuse_mutation
|}.

(** Options with an extensions function that returns the context it is
    given, and a configured context. *)
Definition echo_context : Options := {|
  allowOrigins := JUndefined;
  context := JStr "configured";
  pretty := JBool false;
  validationRules := JArr [];
  rootValue := JUndefined;
  fieldResolver := JUndefined;
  typeResolver := JUndefined;
  extensions := Some (fun xargs => Normal (JObj [("context", xa_context xargs)]));
  customExecuteFn := None;
  customParseFn := None;
  customFormatErrorFn := None;
  customValidateFn := None
|}.

Definition mutation_text : string := "mutation TestMutation { writeTest { test } }".

(** The mutation sent as [application/graphql]. *)
Definition post_mutation : Request := post endpoint "application/graphql" mutation_text.

End TestValidation.

(** ** The early exits of the pipeline *)

Section EarlyExits.

Context {E : Engine}.
Variable schema : Schema.
Variable options : Options.

Lemma map_M_Forall2 (f : JSValue -> Completion JSValue) errors formatted (st : Store) :
  Forall2 (fun e y => f e = Normal y) errors formatted ->
  map_M (fun x => lift (f x)) errors st = (Normal formatted, st).
Proof.
  induction 1 as [|e y errors formatted He _ IH]; simpl; [reflexivity|].
  unfold bind, lift at 1. rewrite He, IH. reflexivity.
Qed.

Lemma logged_nil (st : Store) : logged st [] = st.
Proof. destruct st. unfold logged. simpl. now rewrite app_nil_r. Qed.

Lemma logged_logged (st : Store) a b : logged (logged st a) b = logged st (a ++ b)%list.
Proof. unfold logged. simpl. now rewrite app_assoc. Qed.

(** The call that the GET guard makes. *)
Definition guard_calls (request : Request) (document : Document) (operationName : JSValue)
  : list Call :=
  if String.eqb (method request) "GET"
  then [CallGetOperationAST document operationName]
  else [].

(** The guard lets a request pass when it is not a GET request or when
    the operation is a query or is not determined. *)
Definition passes_guard (request : Request) (document : Document)
  (operationName : JSValue) : Prop :=
  method request <> "GET"
  \/ is_not_query (getOperationAST document operationName) = false.

Lemma guard_GET_passes request document operationName (st : Store) :
  passes_guard request document operationName ->
  guard_GET request document operationName st
  = (Normal tt, logged st (guard_calls request document operationName)).
Proof.
  unfold passes_guard, guard_GET, guard_calls.
  destruct (String.eqb_spec (method request) "GET") as [Hm|Hm].
  - intros [Hn | Hq]; [contradiction|].
    unfold bind, log. simpl. rewrite Hq. reflexivity.
  - intros _. now rewrite logged_nil.
Qed.

(** The response to a thrown object that carries a list of errors and no
    headers. *)
Lemma fail_errors status errors formatted (st : Store) :
  Forall2 (fun e y => formatError options e = Normal y) errors formatted ->
  fail options (JObj [("status", status); ("error", JArr errors)]) st
  = (Normal {| res_body :=
                 body_of (JSON_stringify (JObj [("errors", JArr formatted)])
                            (space options));
               res_status := js_or status (JNum 500);
               res_headers := baseHeaders options |}, st).
Proof.
  intros Hf. unfold fail, bind. unfold lift at 1 2 3. simpl.
  rewrite (map_M_Forall2 _ _ _ st Hf). reflexivity.
Qed.

(** X14.  When the configured validate function returns errors for the
    parsed document, the pipeline stops there with status 400 and those
    errors: [execute] and [extensions] are not called, and the response
    lists the formatted errors. *)
Theorem validation_failure request localContext (st st1 : Store) params document
  validate_fn errors :
  method request = "POST" \/ method request = "GET" ->
  parseParams request st = (Normal params, st1) ->
  truthy (pp_query params) = true ->
  parse options (pp_query params) = Normal document ->
  passes_guard request document (pp_operationName params) ->
  customValidateFn options = Some validate_fn ->
  validate_fn schema document (validationRules options) = Normal errors ->
  errors <> [] ->
  let st2 := logged st1
               (CallParse (pp_query params)
                  :: guard_calls request document (pp_operationName params)
                  ++ [CallValidate schema document (validationRules options)]) in
  orchestrate schema options request localContext st
  = (Throw (JObj [("status", JNum 400); ("error", JArr errors)]), st2)
  /\ forall formatted,
      Forall2 (fun e y => formatError options e = Normal y) errors formatted ->
      createRequestHandler schema options request localContext st
      = (Normal {| res_body :=
                     body_of (JSON_stringify (JObj [("errors", JArr formatted)])
                                (space options));
                   res_status := JNum 400;
                   res_headers := baseHeaders options |}, st2).
Proof.
  intros Hm Hp Hq Hd Hg Hv He Hne st2.
  assert (Ho : orchestrate schema options request localContext st
               = (Throw (JObj [("status", JNum 400); ("error", JArr errors)]), st2)).
  { rewrite (orchestrate_parsed schema options request localContext st st1 params document
               Hm Hp Hq Hd).
    rewrite (bind_step _ _ _ _ _ (guard_GET_passes _ _ _ _ Hg)).
    unfold run_document, validate. rewrite Hv.
    apply bind_Throw. unfold bind, log, lift. rewrite He.
    destruct errors as [|e errors]; [contradiction|]. simpl. unfold throw.
    f_equal. unfold st2, logged. simpl. now rewrite <- !app_assoc. }
  split; [exact Ho|]. intros formatted Hf.
  assert (Hpre : String.eqb (method request) "OPTIONS" && truthy (allowOrigins options)
                 = false)
    by (destruct Hm as [-> | ->]; reflexivity).
  rewrite (handler_fail schema options _ _ _ _ _ Hpre Ho).
  now rewrite (fail_errors (JNum 400) errors formatted st2 Hf).
Qed.

(** X15.  When [parse] throws, the pipeline stops with status 400 and the
    thrown error as the only error: nothing else of the engine is called,
    and the response lists the formatted error. *)
Theorem syntax_error request localContext (st st1 : Store) params syntaxError :
  method request = "POST" \/ method request = "GET" ->
  parseParams request st = (Normal params, st1) ->
  truthy (pp_query params) = true ->
  parse options (pp_query params) = Throw syntaxError ->
  let st2 := logged st1 [CallParse (pp_query params)] in
  orchestrate schema options request localContext st
  = (Throw (JObj [("status", JNum 400); ("error", JArr [syntaxError])]), st2)
  /\ forall formatted,
      formatError options syntaxError = Normal formatted ->
      createRequestHandler schema options request localContext st
      = (Normal {| res_body :=
                     body_of (JSON_stringify (JObj [("errors", JArr [formatted])])
                                (space options));
                   res_status := JNum 400;
                   res_headers := baseHeaders options |}, st2).
Proof.
  intros Hm Hp Hq Hd st2.
  assert (Ho : orchestrate schema options request localContext st
               = (Throw (JObj [("status", JNum 400); ("error", JArr [syntaxError])]), st2)).
  { unfold orchestrate.
    replace (negb (String.eqb (method request) "POST" || String.eqb (method request) "GET"))
      with false by (destruct Hm as [-> | ->]; reflexivity).
    rewrite (bind_step _ _ _ _ _ Hp), Hq. simpl.
    apply bind_Throw. unfold parse_document, try_catch, bind, log, lift, throw.
    rewrite Hd. reflexivity. }
  split; [exact Ho|]. intros formatted Hf.
  assert (Hpre : String.eqb (method request) "OPTIONS" && truthy (allowOrigins options)
                 = false)
    by (destruct Hm as [-> | ->]; reflexivity).
  rewrite (handler_fail schema options _ _ _ _ _ Hpre Ho).
  apply (fail_errors (JNum 400) [syntaxError] [formatted] st2).
  repeat constructor; assumption.
Qed.

(** X16.  A request whose method is neither GET nor POST, and which is not
    a preflight, is refused before anything is read or called: status 405,
    the header [Allow: OPTIONS, GET, POST] after the base headers, and the
    store as it was. *)
Theorem unsupported_method request localContext (st : Store) :
  method request <> "POST" ->
  method request <> "GET" ->
  method request <> "OPTIONS" \/ truthy (allowOrigins options) = false ->
  orchestrate schema options request localContext st = (Throw method_failure, st)
  /\ forall formatted,
      formatError options
        (JObj [("message", JStr "GraphQL only supports GET and POST requests.")])
      = Normal formatted ->
      createRequestHandler schema options request localContext st
      = (Normal {| res_body :=
                     body_of (JSON_stringify (JObj [("errors", JArr [formatted])])
                                (space options));
                   res_status := JNum 405;
                   res_headers :=
                     (baseHeaders options ++ [("Allow", JStr "OPTIONS, GET, POST")])%list |},
         st).
Proof.
  intros Hpost Hget Hpre.
  assert (Ho : orchestrate schema options request localContext st
               = (Throw method_failure, st)).
  { unfold orchestrate.
    destruct (String.eqb_spec (method request) "POST"); [contradiction|].
    destruct (String.eqb_spec (method request) "GET"); [contradiction|].
    reflexivity. }
  split; [exact Ho|]. intros formatted Hf.
  assert (Hp : String.eqb (method request) "OPTIONS" && truthy (allowOrigins options)
               = false).
  { destruct Hpre as [Hm | Ha]; [now apply no_preflight | rewrite Ha; apply andb_false_r]. }
  rewrite (handler_fail schema options _ _ _ _ _ Hp Ho).
  unfold method_failure.
  erewrite fail_message; [| reflexivity | discriminate | exact Hf].
  unfold failure_response. simpl obj_get. rewrite spread_Allow. reflexivity.
Qed.

(** X17.  A POST request with a JSON content type whose body does not parse
    fails with status 400 and the parser's error, whatever the URL
    supplies: the body is read before the URL parameters are looked at. *)
Theorem malformed_json_body request localContext value (st : Store) parseError :
  method request = "POST" ->
  Headers_get (headers request) "Content-Type" = Some value ->
  contains value "application/json" ->
  bodyUsed st = false ->
  JSON_parse (body request) = Throw parseError ->
  let st1 := {| bodyUsed := true; calls := (calls st ++ [ReadBody])%list |} in
  parseParams request st
  = (Throw (JObj [("status", JNum 400); ("error", parseError)]), st1)
  /\ orchestrate schema options request localContext st
     = (Throw (JObj [("status", JNum 400); ("error", parseError)]), st1).
Proof.
  intros Hm Hh Hc Hb Hj st1.
  assert (Hp : parseParams request st
               = (Throw (JObj [("status", JNum 400); ("error", parseError)]), st1)).
  { apply includes_iff in Hc.
    assert (Hfb : fromBody_of request st = (Throw parseError, st1)).
    { unfold fromBody_of.
      rewrite (bind_step _ _ _ _ _ (post_with_POST _ _ _ st Hm Hh)), Hc.
      unfold json_body, Request_json, bind, Request_text, lift.
      rewrite Hb, Hj. reflexivity. }
    unfold parseParams, try_catch.
    rewrite (bind_Throw _ _ _ _ _ Hfb). reflexivity. }
  split; [exact Hp|].
  unfold orchestrate.
  replace (negb (String.eqb (method request) "POST" || String.eqb (method request) "GET"))
    with false by (rewrite Hm; reflexivity).
  now rewrite (bind_Throw _ _ _ _ _ Hp).
Qed.

End EarlyExits.

(** ** Pretty printing *)

(** The options with another [pretty]. *)
Definition with_pretty {E : Engine} (options : Options) (value : JSValue) : Options := {|
  allowOrigins := allowOrigins options;
  context := context options;
  pretty := value;
  validationRules := validationRules options;
  rootValue := rootValue options;
  fieldResolver := fieldResolver options;
  typeResolver := typeResolver options;
  extensions := extensions options;
  customExecuteFn := customExecuteFn options;
  customParseFn := customParseFn options;
  customFormatErrorFn := customFormatErrorFn options;
  customValidateFn := customValidateFn options
|}.

(** Two outcomes that differ at most in the body of the response. *)
Definition same_but_body {E : Engine} (a b : Completion Response * Store) : Prop :=
  snd a = snd b
  /\ match fst a, fst b with
     | Normal r, Normal r' =>
         res_status r = res_status r' /\ res_headers r = res_headers r'
     | Throw e, Throw e' => e = e'
     | _, _ => False
     end.

Section Pretty.

Context {E : Engine}.
Variable schema : Schema.
Variable options : Options.
Variable value : JSValue.

Lemma map_M_lift_store (f : JSValue -> Completion JSValue) l (st : Store) :
  snd (map_M (fun x => lift (f x)) l st) = st.
Proof. apply pure_map_M. intros x. apply pure_lift. Qed.

Lemma respond_pretty result extensionsResult (st : Store) :
  same_but_body (respond options result extensionsResult st)
                (respond (with_pretty options value) result extensionsResult st).
Proof.
  unfold respond, same_but_body, bind, lift, ret.
  change (formatError (with_pretty options value)) with (formatError options).
  change (baseHeaders (with_pretty options value)) with (baseHeaders options).
  destruct (get_prop result "errors") as [errs|e]; cbn -[JSON_stringify]; [|auto].
  destruct (truthy errs).
  - destruct errs; cbn -[JSON_stringify]; unfold throw; auto.
    unfold bind, ret.
    pose proof (map_M_lift_store (formatError options) items st) as Hs.
    destruct (map_M _ items st) as [[l|e] st']; cbn -[JSON_stringify] in *; subst; [|auto].
    destruct (get_prop result "data"); cbn -[JSON_stringify]; auto.
  - destruct (get_prop result "data"); cbn -[JSON_stringify]; auto.
Qed.

Lemma fail_pretty e (st : Store) :
  same_but_body (fail options e st) (fail (with_pretty options value) e st).
Proof.
  unfold fail, same_but_body, bind, lift, ret.
  change (formatError (with_pretty options value)) with (formatError options).
  change (baseHeaders (with_pretty options value)) with (baseHeaders options).
  destruct (destructure e "status"); cbn -[JSON_stringify]; [|auto].
  destruct (destructure e "error") as [error|]; cbn -[JSON_stringify]; [|auto].
  destruct (destructure e "headers"); cbn -[JSON_stringify]; [|auto].
  pose proof (map_M_lift_store (formatError options) (error_list (js_or error e)) st) as Hs.
  destruct (map_M _ (error_list (js_or error e)) st) as [[l|e'] st'];
    cbn -[JSON_stringify] in *; subst; auto.
Qed.

(** X18.  The [pretty] option changes nothing but the text of the body:
    with any other value of it, a run makes the same calls, leaves the
    same store, and returns a response with the same status and headers,
    or rejects with the same value. *)
Theorem pretty_only_changes_body request localContext (st : Store) :
  same_but_body
    (createRequestHandler schema options request localContext st)
    (createRequestHandler schema (with_pretty options value) request localContext st).
Proof.
  unfold createRequestHandler.
  change (allowOrigins (with_pretty options value)) with (allowOrigins options).
  destruct (_ && _); [unfold same_but_body; simpl; auto|].
  unfold try_catch, bind.
  change (orchestrate schema (with_pretty options value) request localContext st)
    with (orchestrate schema options request localContext st).
  destruct (orchestrate schema options request localContext st) as [[r|e] st1].
  - destruct (respond_pretty (fst r) (snd r) st1) as [Hs Hm].
    destruct (respond options (fst r) (snd r) st1) as [[a|e] st2];
      destruct (respond (with_pretty options value) (fst r) (snd r) st1) as [[a'|e'] st2'];
      cbn [fst snd] in *; try contradiction; subst.
    + split; auto.
    + apply fail_pretty.
  - apply fail_pretty.
Qed.

End Pretty.

(** ** The handler of index.js *)

Section FullHandler.

Context {E : Engine} {V : Validation}.
Variable schema : Schema.
Variable options : Options.

(** The validate function that the handler of [index.js] uses. *)
Definition validator : Schema -> Document -> JSValue -> Completion (list JSValue) :=
  match customValidateFn options with
  | Some validate_fn => validate_fn
  | None => gqlValidate
  end.

(** X19.  The handler that [index.js] makes always validates: every call
    to the validate function is made with the specified rules of graphql-js
    followed by the rules of the options, and every document that the
    handler executes is one for which that call returned no error. *)
Theorem full_handler_validates handler :
  Index.createRequestHandler schema options = Normal handler ->
  exists rules,
    spread_array (validationRules options) = Normal rules
    /\ forall request localContext (st : Store),
        exists new,
          calls (snd (handler request localContext st)) = (calls st ++ new)%list
          /\ (forall s d r, In (CallValidate s d r) new ->
                            r = JArr (specifiedRules ++ rules)%list)
          /\ (forall args, In (CallExecute args) new ->
                           validator schema (ea_document args)
                             (JArr (specifiedRules ++ rules)%list)
                           = Normal []).
Proof.
  unfold Index.createRequestHandler.
  destruct (spread_array (validationRules options)) as [rules|e]; [|discriminate].
  intros H. injection H as <-. exists rules. split; [reflexivity|].
  intros request localContext st. unfold createLeanRequestHandler.
  destruct (logs_call_facts schema (Index.lean_options options rules)
              request localContext st) as (new & Hn & Hf & _).
  exists new. split; [exact Hn|]. rewrite Forall_forall in Hf. split.
  - intros s d r Hin. destruct (Hf _ Hin) as (_ & _ & ->). reflexivity.
  - intros args Hin. exact (Hf _ Hin _ eq_refl).
Qed.

End FullHandler.

(** ** Instances of the further theorems *)

Import TestValidation.

Example hashDocument_of_two_bytes :
  hashDocument (fun _ => [Byte.x00; Byte.xff]) "{test}" = "00ff".
Proof. reflexivity. Qed.

Example full_handler_refuses_mutation :
  match Index.createRequestHandler tt defaultOptions with
  | Normal full => fst (full post_mutation JUndefined fresh)
  | Throw e => Throw e
  end
  = Normal {| res_body := js "{'errors':[{'message':'Cannot query field writeTest.'}]}";
              res_status := JNum 400;
              res_headers := [("Content-Type", JStr "application/json")] |}.
Proof. reflexivity. Qed.

Example extensions_get_the_configured_context :
  fst (createRequestHandler tt echo_context (get test_url) (JStr "per call") fresh)
  = Normal {| res_body := js "{'data':{'test':'Hello World'},'extensions':{'context':'configured'}}";
              res_status := JNum 200;
              res_headers := [("Content-Type", JStr "application/json")] |}.
Proof. reflexivity. Qed.

(** [validated_before_execute] at the test validator: the query runs, and
    it is a document that the validator accepts. *)
Lemma validated_before_execute_witness :
  customValidateFn validating = Some refuse_mutation
  /\ In (CallExecute (execute_args (E := engine) tt validating (get test_url) JUndefined
                        test_document JUndefined JUndefined))
        (calls (snd (createRequestHandler tt validating (get test_url) JUndefined fresh)))
  /\ exists new,
      calls (snd (createRequestHandler tt validating (get test_url) JUndefined fresh))
      = (calls fresh ++ new)%list
      /\ forall args, In (CallExecute args) new ->
           refuse_mutation tt (ea_document args) (JArr []) = Normal [].
Proof.
  split; [reflexivity|]. split; [right; right; right; left; reflexivity|].
  exact (validated_before_execute (E := engine) tt validating (get test_url) JUndefined
           fresh refuse_mutation eq_refl).
Defined.

(** [lean_never_validates] at the default options. *)
Lemma lean_never_validates_witness :
  customValidateFn (defaultOptions (E := engine)) = None
  /\ exists new,
      calls (snd (handler (get test_url) JUndefined fresh)) = (calls fresh ++ new)%list
      /\ forall s d rules, ~ In (CallValidate s d rules) new.
Proof.
  split; [reflexivity|].
  exact (lean_never_validates (E := engine) tt defaultOptions (get test_url) JUndefined
           fresh eq_refl).
Defined.

(** [validation_failure] at the mutation sent by POST to a validating
    handler. *)
Lemma validation_failure_witness :
  parseParams post_mutation fresh
  = (Normal {| pp_query := JStr mutation_text;
               pp_variables := JUndefined;
               pp_operationName := JUndefined |},
     {| bodyUsed := true; calls := [ReadBody] |})
  /\ refuse_mutation tt mutation_document (JArr [])
     = Normal [GraphQLError "Cannot query field writeTest."]
  /\ createRequestHandler tt validating post_mutation JUndefined fresh
     = (Normal {| res_body := js "{'errors':[{'message':'Cannot query field writeTest.'}]}";
                  res_status := JNum 400;
                  res_headers := [("Content-Type", JStr "application/json")] |},
        {| bodyUsed := true;
           calls := [ReadBody; CallParse (JStr mutation_text);
                     CallValidate tt mutation_document (JArr [])] |}).
Proof.
  split; [reflexivity|]. split; [reflexivity|].
  refine (proj2 (validation_failure (E := engine) tt validating post_mutation JUndefined
                   fresh {| bodyUsed := true; calls := [ReadBody] |}
                   {| pp_query := JStr mutation_text;
                      pp_variables := JUndefined;
                      pp_operationName := JUndefined |}
                   mutation_document refuse_mutation
                   [GraphQLError "Cannot query field writeTest."]
                   (or_introl eq_refl) eq_refl eq_refl eq_refl _ eq_refl eq_refl _)
            [JObj [("message", JStr "Cannot query field writeTest.")]] _).
  - left. discriminate.
  - discriminate.
  - repeat constructor.
Defined.

(** [syntax_error] at a query that the parser refuses. *)
Lemma syntax_error_witness :
  parse defaultOptions (JStr "oops") = Throw (GraphQLError "Syntax Error: Unexpected Name.")
  /\ handler (get "http://localhost/graphql?query=oops") JUndefined fresh
     = (Normal {| res_body := js "{'errors':[{'message':'Syntax Error: Unexpected Name.'}]}";
                  res_status := JNum 400;
                  res_headers := [("Content-Type", JStr "application/json")] |},
        {| bodyUsed := false; calls := [CallParse (JStr "oops")] |}).
Proof.
  split; [reflexivity|].
  exact (proj2 (syntax_error (E := engine) tt defaultOptions
                  (get "http://localhost/graphql?query=oops") JUndefined fresh fresh
                  {| pp_query := JStr "oops";
                     pp_variables := JUndefined;
                     pp_operationName := JUndefined |}
                  (GraphQLError "Syntax Error: Unexpected Name.")
                  (or_intror eq_refl) eq_refl eq_refl eq_refl)
           (JObj [("message", JStr "Syntax Error: Unexpected Name.")]) eq_refl).
Defined.

(** [unsupported_method] at a PUT request to a handler with an origin. *)
Lemma unsupported_method_witness :
  method (with_method "PUT" test_url) <> "POST"
  /\ method (with_method "PUT" test_url) <> "GET"
  /\ createRequestHandler tt any_origin (with_method "PUT" test_url) JUndefined fresh
     = (Normal {| res_body :=
                    js "{'errors':[{'message':'GraphQL only supports GET and POST requests.'}]}";
                  res_status := JNum 405;
                  res_headers := [("Content-Type", JStr "application/json");
                                  ("Access-Control-Allow-Origin", JStr "*");
                                  ("Allow", JStr "OPTIONS, GET, POST")] |},
        fresh).
Proof.
  assert (Hp : method (with_method "PUT" test_url) <> "POST") by discriminate.
  assert (Hg : method (with_method "PUT" test_url) <> "GET") by discriminate.
  assert (Ho : method (with_method "PUT" test_url) <> "OPTIONS") by discriminate.
  split; [exact Hp|]. split; [exact Hg|].
  exact (proj2 (unsupported_method (E := engine) tt any_origin (with_method "PUT" test_url)
                  JUndefined fresh Hp Hg (or_introl Ho))
           (JObj [("message", JStr "GraphQL only supports GET and POST requests.")])
           eq_refl).
Defined.

(** [malformed_json_body] at a body that stops short, with a good query in
    the URL. *)
Lemma malformed_json_body_witness :
  contains "application/json" "application/json"
  /\ parseParams (post test_url "application/json" "{") fresh
     = (Throw (JObj [("status", JNum 400);
                     ("error", JErr "SyntaxError" "Unexpected token in JSON")]),
        {| bodyUsed := true; calls := [ReadBody] |})
  /\ handler (post test_url "application/json" "{") JUndefined fresh
     = (Normal {| res_body := js "{'errors':[{'message':'Unexpected token in JSON'}]}";
                  res_status := JNum 400;
                  res_headers := [("Content-Type", JStr "application/json")] |},
        {| bodyUsed := true; calls := [ReadBody] |}).
Proof.
  assert (Hc : contains "application/json" "application/json")
    by (exists EmptyString, EmptyString; reflexivity).
  split; [exact Hc|]. split; [|reflexivity].
  exact (proj1 (malformed_json_body (E := engine) tt defaultOptions
                  (post test_url "application/json" "{") JUndefined "application/json"
                  fresh (JErr "SyntaxError" "Unexpected token in JSON")
                  eq_refl eq_refl Hc eq_refl eq_refl)).
Defined.

(** [full_handler_validates] at the default options. *)
Lemma full_handler_validates_witness :
  Index.createRequestHandler tt defaultOptions
  = Normal (createLeanRequestHandler tt (Index.lean_options defaultOptions []))
  /\ exists rules,
      spread_array (validationRules (defaultOptions (E := engine))) = Normal rules
      /\ forall request localContext (st : Store),
          exists new,
            calls (snd (createLeanRequestHandler tt (Index.lean_options defaultOptions [])
                          request localContext st))
            = (calls st ++ new)%list
            /\ (forall s d r, In (CallValidate s d r) new ->
                              r = JArr (specifiedRules ++ rules)%list)
            /\ (forall args, In (CallExecute args) new ->
                             validator defaultOptions tt (ea_document args)
                               (JArr (specifiedRules ++ rules)%list)
                             = Normal []).
Proof.
  split; [reflexivity|].
  exact (full_handler_validates (E := engine) tt defaultOptions _ eq_refl).
Defined.

(** ** Requests without a query, and the headers of a response *)

Section WithoutQuery.

Context {E : Engine}.
Variable schema : Schema.
Variable options : Options.

(** The URL variables are absent or empty, or they decode. *)
Definition variables_decode (fromURL : list (string * string)) : Prop :=
  omits fromURL "variables"
  \/ exists v w, supplies fromURL "variables" v /\ JSON_parse v = Normal w.

(** A pipeline whose body contributes no field and whose URL has no query
    stops at the test of the query. *)
Lemma orchestrate_without_query request localContext (st st1 : Store) fromBody :
  method request = "POST" \/ method request = "GET" ->
  fromBody_of request st = (Normal fromBody, st1) ->
  (forall k, get_prop fromBody k = Normal JUndefined) ->
  omits (URL_searchParams (url request)) "query" ->
  variables_decode (URL_searchParams (url request)) ->
  orchestrate schema options request localContext st = (Throw query_failure, st1).
Proof.
  intros Hm Hfb Hprops Hq Hv.
  assert (Hp : exists params,
             parseParams request st = (Normal params, st1) /\ pp_query params = JUndefined).
  { unfold parseParams, try_catch.
    rewrite (bind_step _ _ _ _ _ Hfb).
    unfold merge. rewrite (if_truthy_omitted _ _ _ Hq).
    unfold bind at 1. unfold lift at 1. rewrite Hprops.
    destruct Hv as [Hv | (v & w & [Hs Hne] & Hw)].
    - rewrite (if_truthy_omitted _ _ _ Hv). unfold bind at 1 2.
      unfold lift at 1. rewrite Hprops. unfold ret at 1.
      destruct (supplies_or_omits (URL_searchParams (url request)) "operationName")
        as [[o [Ho Hne]] | Ho].
      + rewrite (if_truthy_supplied _ _ _ _ Ho Hne). eexists; split; reflexivity.
      + rewrite (if_truthy_omitted _ _ _ Ho). unfold bind, lift. rewrite Hprops.
        eexists; split; reflexivity.
    - rewrite (if_truthy_supplied _ _ _ _ Hs Hne). unfold bind at 1.
      unfold lift at 1. rewrite Hw.
      destruct (supplies_or_omits (URL_searchParams (url request)) "operationName")
        as [[o [Ho Hne']] | Ho].
      + rewrite (if_truthy_supplied _ _ _ _ Ho Hne'). eexists; split; reflexivity.
      + rewrite (if_truthy_omitted _ _ _ Ho). unfold bind, lift. rewrite Hprops.
        eexists; split; reflexivity. }
  destruct Hp as (params & Hp & Hquery).
  unfold orchestrate.
  replace (negb (String.eqb (method request) "POST" || String.eqb (method request) "GET"))
    with false by (destruct Hm as [-> | ->]; reflexivity).
  rewrite (bind_step _ _ _ _ _ Hp), Hquery. reflexivity.
Qed.

(** X20.  A GET request whose URL has no query, or an empty one, fails
    with status 400 and [Must provide query string.] before anything is
    read or called, provided its URL variables are absent or decode. *)
Theorem GET_without_query request localContext (st : Store) :
  method request = "GET" ->
  omits (URL_searchParams (url request)) "query" ->
  variables_decode (URL_searchParams (url request)) ->
  orchestrate schema options request localContext st = (Throw query_failure, st)
  /\ forall formatted,
      formatError options (JObj [("message", JStr "Must provide query string.")])
      = Normal formatted ->
      createRequestHandler schema options request localContext st
      = (Normal {| res_body :=
                     body_of (JSON_stringify (JObj [("errors", JArr [formatted])])
                                (space options));
                   res_status := JNum 400;
                   res_headers := baseHeaders options |}, st).
Proof.
  intros Hm Hq Hv.
  assert (Ho : orchestrate schema options request localContext st
               = (Throw query_failure, st)).
  { apply orchestrate_without_query with (fromBody := JObj []); auto.
    apply fromBody_of_not_POST. rewrite Hm. discriminate. }
  split; [exact Ho|]. intros formatted Hf.
  rewrite (handler_fail schema options _ _ _ _ _
             (no_preflight options _ ltac:(rewrite Hm; discriminate)) Ho).
  unfold query_failure.
  erewrite fail_message; [| reflexivity | discriminate | exact Hf].
  reflexivity.
Qed.

(** A value of JSON that is neither an object nor [null]. *)
Definition not_an_object (v : JSValue) : Prop :=
  match v with
  | JArr _ | JNum _ | JStr _ | JBool _ => True
  | _ => False
  end.

(** X21.  A JSON body that parses to something other than an object or
    [null] (an array, a number, a string, a boolean) contributes no field:
    with no query in the URL the request fails with [Must provide query
    string.], after the body was read. *)
Theorem non_object_json_body request localContext value (st : Store) parsed :
  method request = "POST" ->
  Headers_get (headers request) "Content-Type" = Some value ->
  contains value "application/json" ->
  bodyUsed st = false ->
  JSON_parse (body request) = Normal parsed ->
  not_an_object parsed ->
  omits (URL_searchParams (url request)) "query" ->
  variables_decode (URL_searchParams (url request)) ->
  orchestrate schema options request localContext st
  = (Throw query_failure, {| bodyUsed := true; calls := (calls st ++ [ReadBody])%list |}).
Proof.
  intros Hm Hh Hc Hb Hj Hn Hq Hv.
  apply orchestrate_without_query with (fromBody := parsed); auto.
  - apply includes_iff in Hc. unfold fromBody_of.
    rewrite (bind_step _ _ _ _ _ (post_with_POST _ _ _ st Hm Hh)), Hc.
    unfold json_body, Request_json, bind, Request_text, lift.
    rewrite Hb, Hj. reflexivity.
  - intros k. destruct parsed; try contradiction; reflexivity.
Qed.

(** The [try] block of the handler. *)
Definition try_block (request : Request) (localContext : JSValue)
  : M Store Response :=
  r <- orchestrate schema options request localContext ;;
  respond options (fst r) (snd r).

(** X22.  Every response to a request that is not a preflight carries the
    base headers, the JSON content type and the configured origin among
    them: a header has its base value unless the response comes from a
    thrown value whose own headers carry that name. *)
Theorem base_headers_on_every_response request localContext (st st' : Store)
  response name :
  String.eqb (method request) "OPTIONS" && truthy (allowOrigins options) = false ->
  createRequestHandler schema options request localContext st = (Normal response, st') ->
  obj_get (res_headers response) name = obj_get (baseHeaders options) name
  \/ exists e st1 headers,
      try_block request localContext st = (Throw e, st1)
      /\ destructure e "headers" = Normal headers
      /\ obj_has (own_enumerable headers) name = true.
Proof.
  intros Hp H. unfold createRequestHandler in H. rewrite Hp in H.
  unfold try_catch in H. fold (try_block request localContext) in H.
  destruct (try_block request localContext st) as [[r|e] st1] eqn:Ht.
  - left. injection H as <- _.
    unfold try_block in Ht. apply bind_Normal in Ht as (x & st2 & _ & Hr).
    unfold respond in Hr.
    apply bind_Normal in Hr as (errors & st3 & _ & Hr).
    apply bind_Normal in Hr as (data & st4 & _ & Hr).
    unfold ret in Hr. injection Hr as <- _. reflexivity.
  - unfold fail in H.
    apply bind_Normal in H as (status & st2 & _ & H).
    apply bind_Normal in H as (error & st3 & _ & H).
    apply bind_Normal in H as (headers & st4 & Hh & H).
    apply bind_Normal in H as (errors & st5 & _ & H).
    unfold ret in H. injection H as <- _. cbn [res_headers].
    unfold lift in Hh. injection Hh as Hh _.
    destruct (obj_has (own_enumerable headers) name) eqn:Hhas.
    + right. eauto 6.
    + left. unfold obj_spread. now apply spread_keeps.
Qed.

End WithoutQuery.

(** ** Requests made with urlString *)

(** X23.  A GET request to [urlString({ query })] resolves to that query,
    whatever bytes the text is made of, with no variables and no operation
    name, provided the text is not empty. *)
Theorem urlString_resolves {E : Engine} (query : string) (st : Store)
  (headers : list (string * string)) (body : string) :
  query <> EmptyString ->
  parseParams {| method := "GET";
                 url := urlString (Some [("query", query)]);
                 headers := headers;
                 body := body |} st
  = (Normal {| pp_query := JStr query;
               pp_variables := JUndefined;
               pp_operationName := JUndefined |}, st).
Proof.
  intros Hq.
  set (request := {| method := "GET";
                     url := urlString (Some [("query", query)]);
                     headers := headers;
                     body := body |}).
  assert (Hm : method request <> "POST") by discriminate.
  unfold parseParams, try_catch.
  rewrite (bind_step _ _ _ _ _ (fromBody_of_not_POST request st Hm)).
  change (url request) with (urlString (Some [("query", query)])).
  rewrite searchParams_of_urlString.
  unfold merge, bind, if_truthy. simpl.
  destruct query; [contradiction|]. reflexivity.
Qed.

(** ** Instances of the last theorems *)

(** The test engine with a JSON parser that also knows the empty array. *)
Definition array_engine : Engine := {|
  Schema := unit;
  Document := list OperationDefinitionNode;
  JSON_parse := fun text => if String.eqb text "[]" then Normal (JArr []) else parse_json text;
  gqlParse := parse_source;
  gqlExecute := run;
  gqlFormatError := format;
  getOperationAST := find_operation None
|}.

(** [GET_without_query] at a GET request to the bare endpoint. *)
Lemma GET_without_query_witness :
  omits (URL_searchParams endpoint) "query"
  /\ handler (get endpoint) JUndefined fresh
     = (Normal {| res_body := js "{'errors':[{'message':'Must provide query string.'}]}";
                  res_status := JNum 400;
                  res_headers := [("Content-Type", JStr "application/json")] |},
        fresh).
Proof.
  assert (Hq : omits (URL_searchParams endpoint) "query") by (left; reflexivity).
  split; [exact Hq|].
  exact (proj2 (GET_without_query (E := engine) tt defaultOptions (get endpoint) JUndefined
                  fresh eq_refl Hq (or_introl (or_introl eq_refl)))
           (JObj [("message", JStr "Must provide query string.")]) eq_refl).
Defined.

(** [non_object_json_body] at the body [[]]. *)
Lemma non_object_json_body_witness :
  JSON_parse (Engine := array_engine) "[]" = Normal (JArr [])
  /\ orchestrate (E := array_engine) tt defaultOptions
       (post endpoint "application/json" "[]") JUndefined fresh
     = (Throw query_failure, {| bodyUsed := true; calls := [ReadBody] |}).
Proof.
  split; [reflexivity|].
  refine (non_object_json_body (E := array_engine) tt defaultOptions
            (post endpoint "application/json" "[]") JUndefined "application/json" fresh
            (JArr []) eq_refl eq_refl _ eq_refl eq_refl I
            (or_introl eq_refl) (or_introl (or_introl eq_refl))).
  exists EmptyString, EmptyString; reflexivity.
Defined.

(** [base_headers_on_every_response] at the refusal of a PUT request by a
    handler with an origin: the response carries the origin. *)
Lemma base_headers_on_every_response_witness :
  obj_get (baseHeaders any_origin) "Access-Control-Allow-Origin" = JStr "*"
  /\ exists response st',
      createRequestHandler tt any_origin (with_method "PUT" test_url) JUndefined fresh
      = (Normal response, st')
      /\ obj_get (res_headers response) "Access-Control-Allow-Origin" = JStr "*".
Proof.
  split; [reflexivity|].
  eexists; eexists. split; [reflexivity|].
  destruct (base_headers_on_every_response (E := engine) tt any_origin
              (with_method "PUT" test_url) JUndefined fresh _ _
              "Access-Control-Allow-Origin" eq_refl eq_refl)
    as [H | (e & st1 & headers & Ht & Hd & Hhas)].
  - exact H.
  - reflexivity.
Defined.

(** [urlString_resolves] at a query full of reserved characters. *)
Lemma urlString_resolves_witness :
  "{ a(b: 1) & c = #2 ? 100% + d }" <> EmptyString
  /\ url (get (urlString (Some [("query", "{ a(b: 1) & c = #2 ? 100% + d }")])))
     = "http://localhost/graphql?query=%7B+a%28b%3A+1%29+%26+c+%3D+%232+%3F+100%25+%2B+d+%7D"
  /\ parseParams (E := engine)
       (get (urlString (Some [("query", "{ a(b: 1) & c = #2 ? 100% + d }")]))) fresh
     = (Normal {| pp_query := JStr "{ a(b: 1) & c = #2 ? 100% + d }";
                  pp_variables := JUndefined;
                  pp_operationName := JUndefined |}, fresh).
Proof.
  assert (Hq : "{ a(b: 1) & c = #2 ? 100% + d }" <> EmptyString) by discriminate.
  split; [exact Hq|]. split; [reflexivity|].
  exact (urlString_resolves (E := engine) "{ a(b: 1) & c = #2 ? 100% + d }" fresh []
           EmptyString Hq).
Defined.

(** * The constructor of Response *)

(** [new Response(body, init)] is the host's.  It checks the status and
    the headers it is given and throws when it refuses them: the Fetch
    standard asks for a RangeError on a status outside 200 to 599 and for a
    TypeError on a header name or value that is not one.  The handler
    hands it a status and headers that come from a thrown value as they
    are. *)
Class Host : Type := {
  new_Response : Response -> Completion Response
}.

Module Hosted.

(** The handler with the constructor run at the three places where the
    source calls it.  What it throws in the [try] block is caught like any
    other value; what it throws in the [catch] block, or for the answer to
    a preflight, rejects the promise of the handler. *)
Definition createRequestHandler {E : Engine} {F : Host} (schema : Schema)
  (options : Options) (request : Request) (localContext : JSValue) : M Store Response :=
  if String.eqb (method request) "OPTIONS" && truthy (allowOrigins options) then
    lift (new_Response
            {| res_body := EmptyString;
               res_status := JNum 204;
               res_headers := [("Allow", JStr "OPTIONS, GET, POST");
                               ("Access-Control-Allow-Methods", JStr "OPTIONS, GET, POST");
                               ("Access-Control-Allow-Origin", allowOrigins options)] |})
  else
    try_catch
      (r <- orchestrate schema options request localContext ;;
       init <- respond options (fst r) (snd r) ;;
       lift (new_Response init))
      (fun e => init <- fail options e ;; lift (new_Response init)).

End Hosted.

(** ** A test host

    A constructor with two checks of the Fetch standard: it refuses a
    status that is not a number from 200 to 599 with a RangeError, then a
    header name that is not a token with a TypeError, and returns the
    response of its arguments otherwise. *)
Module TestHost.

Definition token_char (c : ascii) : bool :=
  let n := nat_of_ascii c in
  ((48 <=? n)%nat && (n <=? 57)%nat)
  || ((65 <=? n)%nat && (n <=? 90)%nat)
  || ((97 <=? n)%nat && (n <=? 122)%nat)
  || includes "!#$%&'*+-.^_`|~" (String c EmptyString).

Definition token (name : string) : bool :=
  negb (is_empty name) && all_chars token_char name.

Definition status_in_range (status : JSValue) : bool :=
  match status with
  | JNum n => (200 <=? n)%Z && (n <=? 599)%Z
  | _ => false
  end.

Definition construct (init : Response) : Completion Response :=
  if negb (status_in_range (res_status init)) then
    Throw (JErr "RangeError" "The status provided is outside the range [200, 599].")
  else if forallb (fun header => token (fst header)) (res_headers init) then
    Normal init
  else Throw (TypeError "Invalid header name.").

#[export] Instance host : Host := {| new_Response := construct |}.

(** [customExecuteFn: () => { throw e }]. *)
Definition throwing (e : JSValue) : Options :=
  options_with JUndefined None (Some (fun _ => Throw e)).

End TestHost.

Section Constructor.

Context {E : Engine} {F : Host}.
Variable schema : Schema.
Variable options : Options.

(** What the handler gives the constructor and the constructor accepts is
    what the handler returns. *)
Lemma hosted_accepts request localContext (st st' : Store) init response :
  createRequestHandler schema options request localContext st = (Normal init, st') ->
  new_Response init = Normal response ->
  Hosted.createRequestHandler schema options request localContext st
  = (Normal response, st').
Proof.
  unfold createRequestHandler, Hosted.createRequestHandler.
  destruct (_ && _).
  - intros Hr Hn. injection Hr as <- <-. unfold lift. now rewrite Hn.
  - unfold try_catch, bind.
    destruct (orchestrate schema options request localContext st) as [[r|e] st1].
    + destruct (respond options (fst r) (snd r) st1) as [[i|e] st2].
      * intros Hr Hn. injection Hr as <- <-. unfold lift. now rewrite Hn.
      * intros Hr Hn. rewrite Hr. unfold lift. now rewrite Hn.
    + intros Hr Hn. rewrite Hr. unfold lift. now rewrite Hn.
Qed.

(** A value thrown before the response is made goes to the [catch] block,
    whose call of the constructor ends the run. *)
Lemma hosted_fail request localContext (st st' : Store) e :
  (String.eqb (method request) "OPTIONS" && truthy (allowOrigins options)) = false ->
  orchestrate schema options request localContext st = (Throw e, st') ->
  Hosted.createRequestHandler schema options request localContext st
  = (init <- fail options e ;; lift (new_Response init)) st'.
Proof.
  intros Hp Ho. unfold Hosted.createRequestHandler. rewrite Hp.
  unfold try_catch. unfold bind at 1. rewrite Ho. reflexivity.
Qed.

Lemma Forall_Forall2 {A B : Type} (R : A -> B -> Prop) (l : list A) :
  Forall (fun x => exists y, R x y) l -> exists ys, Forall2 R l ys.
Proof.
  induction 1 as [|x l [y Hy] _ [ys IH]].
  - exists []. constructor.
  - exists (y :: ys). now constructor.
Qed.

(** X2.  A value thrown in the pipeline, other than [undefined] and
    [null], reaches the constructor of [Response], provided [formatError]
    returns on the errors made of it: with the formatted errors as the
    body, with the carried status, or 500 when none is carried, and with
    the base headers and the carried headers spread over them.  The
    handler returns the response that the constructor makes of them, and
    rejects with what the constructor throws when it refuses them. *)
Theorem handler_catches request localContext (st st' : Store) e :
  (String.eqb (method request) "OPTIONS" && truthy (allowOrigins options)) = false ->
  orchestrate schema options request localContext st = (Throw e, st') ->
  e <> JUndefined -> e <> JNull ->
  (forall error, get_prop e "error" = Normal error ->
                 Forall (fun x => exists y, formatError options x = Normal y)
                        (error_list (js_or error e))) ->
  exists status error headers formatted,
    get_prop e "status" = Normal status
    /\ get_prop e "error" = Normal error
    /\ get_prop e "headers" = Normal headers
    /\ Forall2 (fun x y => formatError options x = Normal y)
         (error_list (js_or error e)) formatted
    /\ Hosted.createRequestHandler schema options request localContext st
       = (new_Response
            {| res_body :=
                 body_of (JSON_stringify (JObj [("errors", JArr formatted)]) (space options));
               res_status := js_or status (JNum 500);
               res_headers := obj_spread (baseHeaders options) headers |},
          st').
Proof.
  intros Hp Ho Hu Hn Hf.
  destruct (destructure_total e "status" Hu Hn) as (status & Hs & Hs').
  destruct (destructure_total e "error" Hu Hn) as (error & He & He').
  destruct (destructure_total e "headers" Hu Hn) as (headers & Hh & Hh').
  destruct (Forall_Forall2 _ _ (Hf error He')) as [formatted Hfm].
  exists status, error, headers, formatted. repeat split; auto.
  rewrite (hosted_fail _ _ _ _ _ Hp Ho).
  unfold bind at 1.
  rewrite (fail_Normal options e status error headers formatted st' Hs He Hh
             (map_M_Forall2 _ _ _ _ Hfm)).
  reflexivity.
Qed.

End Constructor.

(** ** Instances *)

Import TestHost.

(** [handler_catches] at an execute function that throws an object with
    the status 1000. *)
Lemma handler_catches_witness :
  orchestrate tt (throwing (JObj [("status", JNum 1000)])) (get test_url) JUndefined fresh
  = (Throw (JObj [("status", JNum 1000)]),
     snd (orchestrate tt (throwing (JObj [("status", JNum 1000)])) (get test_url)
            JUndefined fresh))
  /\ exists status error headers formatted,
      get_prop (JObj [("status", JNum 1000)]) "status" = Normal status
      /\ get_prop (JObj [("status", JNum 1000)]) "error" = Normal error
      /\ get_prop (JObj [("status", JNum 1000)]) "headers" = Normal headers
      /\ Forall2 (fun x y => formatError (throwing (JObj [("status", JNum 1000)])) x = Normal y)
           (error_list (js_or error (JObj [("status", JNum 1000)]))) formatted
      /\ Hosted.createRequestHandler tt (throwing (JObj [("status", JNum 1000)]))
           (get test_url) JUndefined fresh
         = (new_Response
              {| res_body :=
                   body_of (JSON_stringify (JObj [("errors", JArr formatted)])
                              (space (throwing (JObj [("status", JNum 1000)]))));
                 res_status := js_or status (JNum 500);
                 res_headers :=
                   obj_spread (baseHeaders (throwing (JObj [("status", JNum 1000)]))) headers |},
            snd (orchestrate tt (throwing (JObj [("status", JNum 1000)])) (get test_url)
                   JUndefined fresh)).
Proof.
  assert (Ho : orchestrate tt (throwing (JObj [("status", JNum 1000)])) (get test_url)
                 JUndefined fresh
               = (Throw (JObj [("status", JNum 1000)]),
                  snd (orchestrate tt (throwing (JObj [("status", JNum 1000)])) (get test_url)
                         JUndefined fresh)))
    by reflexivity.
  split; [exact Ho|].
  apply (handler_catches (E := engine) (F := host) tt (throwing (JObj [("status", JNum 1000)]))
           (get test_url) JUndefined fresh _ (JObj [("status", JNum 1000)]) eq_refl Ho);
    try discriminate.
  intros error He. injection He as <-.
  constructor; [eexists; reflexivity | constructor].
Defined.

(** A thrown status that the constructor refuses: the handler rejects. *)
Example out_of_range_status_rejects :
  fst (Hosted.createRequestHandler tt (throwing (JObj [("status", JNum 1000)]))
         (get test_url) JUndefined fresh)
  = Throw (JErr "RangeError" "The status provided is outside the range [200, 599].").
Proof. reflexivity. Qed.

(** Thrown headers with a name that is not one: the handler rejects. *)
Example illegal_header_name_rejects :
  fst (Hosted.createRequestHandler tt
         (throwing (JObj [("headers", JObj [("bad name", JStr "x")])]))
         (get test_url) JUndefined fresh)
  = Throw (TypeError "Invalid header name.").
Proof. reflexivity. Qed.

(** A thrown string: the response has the status 500, the base headers
    and the string as the message of its only error. *)
Example thrown_string_answered :
  fst (Hosted.createRequestHandler tt throwing_string (get test_url) JUndefined fresh)
  = Normal {| res_body := js "{'errors':[{'message':'boom'}]}";
              res_status := JNum 500;
              res_headers := [("Content-Type", JStr "application/json")] |}.
Proof. reflexivity. Qed.
